(** * ClusterCost CLI: input validators and dashboard Helm arguments

    A shallow embedding of the pure core of [src/index.mjs]:
    [validateNamespace], [validateServiceName], [validatePort],
    [buildAgentBaseUrl] and [buildDashboardHelmArgs], together with the
    pieces of the JavaScript run time they call ([String.prototype.trim],
    the regular expression [/\s/], [Number(...)], the relational operators
    on numbers, template literals and [Array.prototype.push]). *)

From Stdlib Require Import ZArith NArith QArith Qpower List Bool Ascii String Lia.
From Stdlib Require Import Numbers.DecimalString.
Import ListNotations.

Local Open Scope Z_scope.

(** ** JavaScript strings

    A JavaScript string is a finite sequence of UTF-16 code units.  A code
    unit is kept as an [N]; the source never looks at a unit above 0xFFFF. *)

Definition code_unit := N.
Definition jsstring := list code_unit.

(** The code units of an ASCII literal of the source. *)
Definition js (s : string) : jsstring :=
  List.map N_of_ascii (list_ascii_of_string s).

Definition jsstring_eq_dec (a b : jsstring) : {a = b} + {a <> b} :=
  list_eq_dec N.eq_dec a b.

(** [a === b] on two strings. *)
Definition str_eqb (a b : jsstring) : bool :=
  if jsstring_eq_dec a b then true else false.

(** ECMAScript WhiteSpace and LineTerminator code points.  This one class is
    what [trim] strips, what [\s] matches and what StrWhiteSpaceChar of the
    numeric string grammar accepts. *)
Definition is_white_space (c : code_unit) : bool :=
  ((c =? 9) || (c =? 10) || (c =? 11) || (c =? 12) || (c =? 13)
   || (c =? 32) || (c =? 160) || (c =? 5760)
   || ((8192 <=? c) && (c <=? 8202))
   || (c =? 8232) || (c =? 8233) || (c =? 8239) || (c =? 8287)
   || (c =? 12288) || (c =? 65279))%N.

Fixpoint trimStart (s : jsstring) : jsstring :=
  match s with
  | [] => []
  | c :: r => if is_white_space c then trimStart r else s
  end.

Definition trimEnd (s : jsstring) : jsstring := rev (trimStart (rev s)).

(** [String.prototype.trim] *)
Definition trim (s : jsstring) : jsstring := trimEnd (trimStart s).

(** [/\s/.test(s)] *)
Definition test_white_space (s : jsstring) : bool := existsb is_white_space s.

(** ** JavaScript values and completions *)

(** IEEE 754 binary64, as the value [(-1)^neg * m * 2^e].  Values built by
    [round_binary64] below are canonical: [m < 2^53], [-1074 <= e <= 971],
    and [m < 2^52] only when [e = -1074]. *)
Inductive number : Type :=
| NaN
| Infinity (neg : bool)
| Finite (neg : bool) (m : Z) (e : Z).

(** The primitive values a caller can pass.  Objects are left out. *)
Inductive value : Type :=
| VUndefined
| VNull
| VBoolean (b : bool)
| VNumber (n : number)
| VBigInt (z : Z)
| VSymbol
| VString (s : jsstring).

Inductive error : Type :=
| TypeError.

(** The outcome of a call: it returns or it throws. *)
Inductive completion (A : Type) : Type :=
| Normal (a : A)
| Throw (e : error).
Arguments Normal {A} a.
Arguments Throw {A} e.

(** What a validator returns when it returns: [undefined] is [None], a
    message is [Some]. *)
Definition validation := option jsstring.

(** [value.trim()] for a [value] that is neither [undefined] nor [null]:
    only a string has the method; on the other primitives [value.trim] is
    [undefined] and the call throws a TypeError. *)
Definition call_trim (v : value) : completion jsstring :=
  match v with
  | VString s => Normal (trim s)
  | _ => Throw TypeError
  end.

(** [!s] on a string. *)
Definition str_falsy (s : jsstring) : bool :=
  match s with [] => true | _ => false end.

Definition validateNamespace (v : value) : completion validation :=
  match v with
  | VUndefined | VNull => Normal (Some (js "Namespace cannot be empty."))
  | _ =>
    match call_trim v with
    | Throw e => Throw e
    | Normal trimmed =>
      if str_falsy trimmed then Normal (Some (js "Namespace cannot be empty."))
      else if test_white_space trimmed
           then Normal (Some (js "Namespace cannot contain spaces."))
           else Normal None
    end
  end.

Definition validateServiceName (v : value) : completion validation :=
  match v with
  | VUndefined | VNull => Normal (Some (js "Service name is required."))
  | _ =>
    match call_trim v with
    | Throw e => Throw e
    | Normal trimmed =>
      if str_falsy trimmed then Normal (Some (js "Service name is required."))
      else if test_white_space trimmed
           then Normal (Some (js "Service name cannot contain spaces."))
           else Normal None
    end
  end.

(** ** Numbers *)

(** [(p / q) / 2^e] as a fraction of integers. *)
Definition scale2 (p q e : Z) : Z * Z :=
  if 0 <=? e then (p, q * 2 ^ e) else (p * 2 ^ (- e), q).

(** The largest [k] with [2^k <= p / q], for [p, q > 0]. *)
Definition floor_log2 (p q : Z) : Z :=
  let e0 := Z.log2 p - Z.log2 q in
  let (n, d) := scale2 p q e0 in
  if n <? d then e0 - 1 else e0.

(** Division rounded to the nearest integer, ties to even. *)
Definition div_nearest_even (n d : Z) : Z :=
  let m := n / d in
  let r := n mod d in
  if 2 * r <? d then m
  else if d <? 2 * r then m + 1
  else if Z.even m then m else m + 1.

Definition zero (neg : bool) : number := Finite neg 0 (-1074).

(** The Number value for the real [(-1)^neg * p / q] ([0 <= p], [0 < q]):
    round to nearest, ties to even, in binary64; a result of magnitude
    [2^1024] or more is an infinity. *)
Definition round_binary64 (neg : bool) (p q : Z) : number :=
  if p <=? 0 then zero neg
  else
    let e := Z.max (floor_log2 p q - 52) (-1074) in
    let (n, d) := scale2 p q e in
    let m := div_nearest_even n d in
    let (m', e') := if m =? 2 ^ 53 then (2 ^ 52, e + 1) else (m, e) in
    if 971 <? e' then Infinity neg else Finite neg m' e'.

(** A numeric literal of the source, and the Number of a BigInt. *)
Definition number_of_Z (z : Z) : number :=
  round_binary64 (z <? 0) (Z.abs z) 1.

(** *** The relational operators *)

Definition finite_real_lt (n1 : bool) (m1 e1 : Z) (n2 : bool) (m2 e2 : Z) : bool :=
  let e := Z.min e1 e2 in
  let z1 := (if n1 then - m1 else m1) * 2 ^ (e1 - e) in
  let z2 := (if n2 then - m2 else m2) * 2 ^ (e2 - e) in
  z1 <? z2.

(** Number::lessThan(x, y); [None] is the result [undefined]. *)
Definition lessThan (x y : number) : option bool :=
  match x, y with
  | NaN, _ | _, NaN => None
  | Infinity false, _ => Some false
  | _, Infinity false => Some true
  | _, Infinity true => Some false
  | Infinity true, _ => Some true
  | Finite n1 m1 e1, Finite n2 m2 e2 => Some (finite_real_lt n1 m1 e1 n2 m2 e2)
  end.

(** [x <= y]: false when [y < x] is true or undefined. *)
Definition js_le (x y : number) : bool :=
  match lessThan y x with
  | Some false => true
  | _ => false
  end.

(** [x > y]: [y < x], with undefined read as false. *)
Definition js_gt (x y : number) : bool :=
  match lessThan y x with
  | Some true => true
  | _ => false
  end.

(** [Number.isNaN] on a number. *)
Definition isNaN (x : number) : bool :=
  match x with NaN => true | _ => false end.

(** *** StringToNumber *)

Definition is_decimal_digit (c : code_unit) : bool :=
  ((48 <=? c) && (c <=? 57))%N.

(** The value of a digit in base 16, if [c] is one. *)
Definition hex_digit_value (c : code_unit) : option Z :=
  if ((48 <=? c) && (c <=? 57))%N then Some (Z.of_N c - 48)
  else if ((65 <=? c) && (c <=? 70))%N then Some (Z.of_N c - 55)
  else if ((97 <=? c) && (c <=? 102))%N then Some (Z.of_N c - 87)
  else None.

Definition digit_in_base (base : Z) (c : code_unit) : option Z :=
  match hex_digit_value c with
  | Some d => if d <? base then Some d else None
  | None => None
  end.

(** The integer written by [s] in [base]; [None] when some unit of [s] is
    not a digit of that base. *)
Fixpoint digits_value (base : Z) (acc : Z) (s : jsstring) : option Z :=
  match s with
  | [] => Some acc
  | c :: r =>
    match digit_in_base base c with
    | Some d => digits_value base (acc * base + d) r
    | None => None
    end
  end.

(** The longest prefix of decimal digits, and the rest. *)
Fixpoint span_digits (s : jsstring) : jsstring * jsstring :=
  match s with
  | [] => ([], [])
  | c :: r =>
    if is_decimal_digit c
    then let (ds, rest) := span_digits r in (c :: ds, rest)
    else ([], s)
  end.

(** DecimalDigits, non-empty, up to the end of the string. *)
Definition parse_DecimalDigits (s : jsstring) : option Z :=
  match s with
  | [] => None
  | _ => digits_value 10 0 s
  end.

(** SignedInteger up to the end of the string. *)
Definition parse_SignedInteger (s : jsstring) : option Z :=
  match s with
  | c :: r =>
    if (c =? 43)%N then parse_DecimalDigits r
    else if (c =? 45)%N then option_map Z.opp (parse_DecimalDigits r)
    else parse_DecimalDigits s
  | [] => None
  end.

(** ExponentPart_opt up to the end of the string: the exponent it denotes. *)
Definition parse_ExponentPart_opt (s : jsstring) : option Z :=
  match s with
  | [] => Some 0
  | c :: r =>
    if ((c =? 101) || (c =? 69))%N then parse_SignedInteger r else None
  end.

(** StrUnsignedDecimalLiteral other than [Infinity]: the pair [(d, x)] with
    mathematical value [d * 10^x]. *)
Definition parse_StrUnsignedDecimalLiteral (s : jsstring) : option (Z * Z) :=
  let (ip, r1) := span_digits s in
  let (fp, r3) :=
    match r1 with
    | c :: r2 => if (c =? 46)%N then span_digits r2 else ([], r1)
    | [] => ([], r1)
    end in
  match ip ++ fp with
  | [] => None
  | ds =>
    match digits_value 10 0 ds, parse_ExponentPart_opt r3 with
    | Some d, Some x => Some (d, x - Z.of_nat (List.length fp))
    | _, _ => None
    end
  end.

(** The Number value of [d * 10^x], signed by [neg]. *)
Definition round_decimal (neg : bool) (d x : Z) : number :=
  if 0 <=? x then round_binary64 neg (d * 10 ^ x) 1
  else round_binary64 neg d (10 ^ (- x)).

Definition parse_StrDecimalLiteral (s : jsstring) : option number :=
  let (neg, body) :=
    match s with
    | c :: r =>
      if (c =? 43)%N then (false, r)
      else if (c =? 45)%N then (true, r)
      else (false, s)
    | [] => (false, s)
    end in
  if str_eqb body (js "Infinity") then Some (Infinity neg)
  else
    match parse_StrUnsignedDecimalLiteral body with
    | Some (d, x) => Some (round_decimal neg d x)
    | None => None
    end.

(** NonDecimalIntegerLiteral: [0b], [0o] or [0x] (either case) and at least
    one digit of that base. *)
Definition parse_NonDecimalIntegerLiteral (s : jsstring) : option number :=
  match s with
  | z :: p :: ((_ :: _) as ds) =>
    let base :=
      if negb (z =? 48)%N then None
      else if ((p =? 98) || (p =? 66))%N then Some 2
      else if ((p =? 111) || (p =? 79))%N then Some 8
      else if ((p =? 120) || (p =? 88))%N then Some 16
      else None in
    match base with
    | Some b => option_map number_of_Z (digits_value b 0 ds)
    | None => None
    end
  | _ => None
  end.

Definition parse_StrNumericLiteral (s : jsstring) : option number :=
  match parse_StrDecimalLiteral s with
  | Some n => Some n
  | None => parse_NonDecimalIntegerLiteral s
  end.

(** StringToNumber: surrounding white space is dropped; the empty string
    is [+0]; a string that is not a StrNumericLiteral is [NaN].  The value
    of a literal is rounded exactly, whatever its number of digits, as V8
    does. *)
Definition StringToNumber (s : jsstring) : number :=
  match trim s with
  | [] => zero false
  | t =>
    match parse_StrNumericLiteral t with
    | Some n => n
    | None => NaN
    end
  end.

(** [Number(value)] *)
Definition Number (v : value) : completion number :=
  match v with
  | VUndefined => Normal NaN
  | VNull => Normal (zero false)
  | VBoolean b => Normal (if b then number_of_Z 1 else zero false)
  | VNumber n => Normal n
  | VBigInt z => Normal (number_of_Z z)
  | VSymbol => Throw TypeError
  | VString s => Normal (StringToNumber s)
  end.

Definition validatePort (v : value) : completion validation :=
  let trimmed :=
    match v with
    | VString s => VString (trim s)
    | _ => v
    end in
  match Number trimmed with
  | Throw e => Throw e
  | Normal numeric =>
    if isNaN numeric || js_le numeric (number_of_Z 0)
       || js_gt numeric (number_of_Z 65535)
    then Normal (Some (js "Enter a valid TCP port (1-65535)."))
    else Normal None
  end.

(** ** The dashboard Helm arguments *)

Definition DEFAULT_NAMESPACE : jsstring := js "clustercost".
Definition AGENT_RELEASE : jsstring := js "clustercost-agent".
Definition AGENT_CHART : jsstring := js "clustercost/clustercost-agent-k8s".
Definition DASHBOARD_RELEASE : jsstring := js "clustercost-dashboard".
Definition DASHBOARD_CHART : jsstring := js "clustercost/clustercost-dashboard".
Definition AGENT_SERVICE_PORT : Z := 8080.

(** [s.split(sep)] for a separator of one code unit. *)
Fixpoint split (sep : code_unit) (s : jsstring) : list jsstring :=
  match s with
  | [] => [[]]
  | c :: r =>
    if (c =? sep)%N then [] :: split sep r
    else
      match split sep r with
      | h :: t => (c :: h) :: t
      | [] => [[c]]
      end
  end.

(** A substitution of a template literal whose value is a string or, from
    an index past the end of an array, [undefined]. *)
Definition template_string (o : option jsstring) : jsstring :=
  match o with
  | Some s => s
  | None => js "undefined"
  end.

(** A substitution of a template literal whose value is an integer of
    magnitude below [10^21]: its decimal digits. *)
Definition template_integer (z : Z) : jsstring :=
  js (NilEmpty.string_of_int (Z.to_int z)).

Definition AGENT_SERVICE_HOST : jsstring :=
  AGENT_RELEASE ++ js "-" ++ template_string (nth_error (split 47%N AGENT_CHART) 1).

Definition buildAgentBaseUrl (namespace : jsstring) : jsstring :=
  js "http://" ++ AGENT_SERVICE_HOST ++ js "." ++ namespace
  ++ js ".svc.cluster.local:" ++ template_integer AGENT_SERVICE_PORT.

(** [args.push(...items)] on the array value held by a local. *)
Definition push (args items : list jsstring) : list jsstring := args ++ items.

Definition buildDashboardHelmArgs (namespace : jsstring) : list jsstring :=
  let args :=
    [js "upgrade"; js "--install"; DASHBOARD_RELEASE; DASHBOARD_CHART;
     js "-n"; namespace] in
  if negb (str_eqb namespace DEFAULT_NAMESPACE)
  then push args
         [js "--set-string";
          js "agents[0].baseUrl=" ++ buildAgentBaseUrl namespace]
  else args.

(** *** The same function over a store of array objects

    Each call allocates a new array object and [push] mutates that object
    in place; the caller gets a reference.  This version keeps the store
    explicit, so that what one call leaves behind is there when the next
    one runs. *)
Module Heap.

Definition ref := nat.
Definition store := list (list jsstring).

(** A computation over the store. *)
Definition M (A : Type) : Type := store -> A * store.

Definition ret {A} (a : A) : M A := fun h => (a, h).
Definition bind {A B} (c : M A) (k : A -> M B) : M B :=
  fun h => let (a, h') := c h in k a h'.

Notation "x <- c ;; k" := (bind c (fun x => k))
  (at level 61, c at next level, right associativity).
Notation "c ;;; k" := (bind c (fun _ => k))
  (at level 61, right associativity).

(** An array literal: a new object, at the next free reference. *)
Definition new_array (items : list jsstring) : M ref :=
  fun h => (List.length h, h ++ [items]).

Fixpoint update (r : ref) (f : list jsstring -> list jsstring) (h : store) : store :=
  match h, r with
  | [], _ => []
  | a :: t, O => f a :: t
  | a :: t, S r' => a :: update r' f t
  end.

(** [r.push(...items)]: the object is extended in place. *)
Definition array_push (r : ref) (items : list jsstring) : M unit :=
  fun h => (tt, update r (fun a => a ++ items) h).

Definition read (r : ref) (h : store) : option (list jsstring) := nth_error h r.

Definition buildDashboardHelmArgs (namespace : jsstring) : M ref :=
  args <- new_array
            [js "upgrade"; js "--install"; DASHBOARD_RELEASE;
             DASHBOARD_CHART; js "-n"; namespace] ;;
  (if negb (str_eqb namespace DEFAULT_NAMESPACE)
   then array_push args
          [js "--set-string";
           js "agents[0].baseUrl=" ++ buildAgentBaseUrl namespace]
   else ret tt) ;;;
  ret args.

End Heap.

(** ** Reading the answers of the prompts

    The three flows read a prompt's answer as
    [(response || fallback).trim()] and the port as
    [Number(portResponse || DASHBOARD_LOCAL_PORT) || DASHBOARD_LOCAL_PORT]. *)

Definition DASHBOARD_SERVICE : jsstring := js "clustercost-dashboard".
Definition DASHBOARD_LOCAL_PORT : number := number_of_Z 3000.

(** ToBoolean on a number: [NaN], [+0] and [-0] are falsy. *)
Definition number_truthy (n : number) : bool :=
  match n with
  | NaN => false
  | Infinity _ => true
  | Finite _ m _ => negb (m =? 0)
  end.

Definition ToBoolean (v : value) : bool :=
  match v with
  | VUndefined | VNull => false
  | VBoolean b => b
  | VNumber n => number_truthy n
  | VBigInt z => negb (z =? 0)
  | VSymbol => true
  | VString s => negb (str_falsy s)
  end.

(** [a || b] *)
Definition js_or (a b : value) : value := if ToBoolean a then a else b.

(** [const namespace = (namespaceResponse || DEFAULT_NAMESPACE).trim()] *)
Definition namespace_of_response (namespaceResponse : value) : completion jsstring :=
  call_trim (js_or namespaceResponse (VString DEFAULT_NAMESPACE)).

(** [const serviceName = (serviceResponse || DASHBOARD_SERVICE).trim()] *)
Definition serviceName_of_response (serviceResponse : value) : completion jsstring :=
  call_trim (js_or serviceResponse (VString DASHBOARD_SERVICE)).

(** [const localPort = Number(portResponse || DASHBOARD_LOCAL_PORT)
                       || DASHBOARD_LOCAL_PORT] *)
Definition localPort_of_response (portResponse : value) : completion number :=
  match Number (js_or portResponse (VNumber DASHBOARD_LOCAL_PORT)) with
  | Throw e => Throw e
  | Normal n => Normal (if number_truthy n then n else DASHBOARD_LOCAL_PORT)
  end.

(** ** Errors of the flows, and steps *)

Inductive exn : Type :=
| Error (message : jsstring)
| StepError (step : jsstring) (commandError : exn)
| OperationCancelledError.

(** How an awaited call ends. *)
Inductive outcome (A : Type) : Type :=
| Returned (a : A)
| Thrown (e : exn).
Arguments Returned {A} a.
Arguments Thrown {A} e.

(** What a step does to its spinner. *)
Inductive spinner_event : Type :=
| SpinnerStart (text : jsstring)
| SpinnerSucceed (text : jsstring)
| SpinnerFail (text : jsstring).

(** [successLabel || label], for a [successLabel] that is a string or
    [undefined]. *)
Definition success_text (successLabel : option jsstring) (label : jsstring) : jsstring :=
  match successLabel with
  | Some s => if str_falsy s then label else s
  | None => label
  end.

(** [runStep(label, fn, successLabel)], given how the awaited [fn()] ends:
    the events sent to the spinner, and how the step ends. *)
Definition runStep {A : Type} (label : jsstring) (fn : outcome A)
           (successLabel : option jsstring) : list spinner_event * outcome A :=
  match fn with
  | Returned result =>
    ([SpinnerStart label; SpinnerSucceed (success_text successLabel label)],
     Returned result)
  | Thrown error =>
    ([SpinnerStart label; SpinnerFail label],
     match error with
     | StepError _ _ => Thrown error
     | _ => Thrown (StepError label error)
     end)
  end.

(** ** Choosing a Kubernetes context *)

Record select_option : Type :=
  { opt_label : jsstring; opt_value : jsstring }.

(** The argument of [select]; [initialValue] is a string or [undefined]. *)
Record select_request : Type :=
  { message : jsstring;
    options : list select_option;
    initialValue : option jsstring }.

(** The answer of [select]: the value of an option, or the cancel symbol. *)
Inductive select_answer : Type :=
| Cancelled
| Selected (v : jsstring).

(** [stdout.split('\n').map((context) => context.trim()).filter(Boolean)] *)
Definition context_names (stdout : jsstring) : list jsstring :=
  filter (fun context => negb (str_falsy context))
         (List.map trim (split 10%N stdout)).

(** [contexts.includes(currentContext)] *)
Definition includes (contexts : list jsstring) (currentContext : jsstring) : bool :=
  existsb (fun ctx => str_eqb ctx currentContext) contexts.

(** The request built from the contexts and the current one. *)
Definition context_request (currentContext : jsstring) (contexts : list jsstring)
  : select_request :=
  {| message := js "Choose a Kubernetes context for installation";
     options :=
       List.map (fun ctx =>
                   {| opt_label := if str_eqb ctx currentContext
                                   then ctx ++ js " (current)" else ctx;
                      opt_value := ctx |})
                contexts;
     initialValue :=
       if includes contexts currentContext then Some currentContext
       else nth_error contexts 0 |}.

(** [promptForContextSelection(currentContext)], given how
    [kubectl config get-contexts -o name] ends (its trimmed standard
    output, or the error it is rejected with) and how the user answers
    [select].  What is printed to the console is left out. *)
Definition promptForContextSelection (currentContext : jsstring)
           (contextsResult : outcome jsstring)
           (select : select_request -> select_answer) : outcome jsstring :=
  match contextsResult with
  | Thrown error => Thrown (StepError (js "List Kubernetes contexts") error)
  | Returned stdout =>
    let contexts := context_names stdout in
    if (List.length contexts =? 0)%nat
    then Thrown (StepError (js "List Kubernetes contexts")
                           (Error (js "No Kubernetes contexts found.")))
    else
      match select (context_request currentContext contexts) with
      | Cancelled => Thrown OperationCancelledError
      | Selected selectedContext => Returned selectedContext
      end
  end.

(** ** The install state and the main menu *)

(** An entry of [helm list -A -o json].  Helm writes every field as a JSON
    string; a field that is missing reads as [undefined], here [None]. *)
Record release : Type :=
  { release_name : option jsstring;
    release_namespace : option jsstring;
    release_revision : option jsstring;
    release_updated : option jsstring;
    release_status : option jsstring }.

(** What [findReleaseInfo] keeps of a release. *)
Record release_info : Type :=
  { info_namespace : option jsstring;
    info_revision : option jsstring;
    info_updated : option jsstring;
    info_status : option jsstring }.

(** [installState]; [null] is [None]. *)
Record install_state : Type :=
  { agent : option release_info;
    dashboard : option release_info }.

(** [release.name === releaseName] *)
Definition name_is (releaseName : jsstring) (r : release) : bool :=
  match release_name r with
  | Some n => str_eqb n releaseName
  | None => false
  end.

Definition findReleaseInfo (releases : list release) (releaseName : jsstring)
  : option release_info :=
  match find (name_is releaseName) releases with
  | None => None
  | Some m =>
    Some {| info_namespace := release_namespace m;
            info_revision := release_revision m;
            info_updated := release_updated m;
            info_status := release_status m |}
  end.

(** The state [detectInstallState] returns once the releases are parsed. *)
Definition state_of_releases (releases : list release) : install_state :=
  {| agent := findReleaseInfo releases AGENT_RELEASE;
     dashboard := findReleaseInfo releases DASHBOARD_RELEASE |}.

(** [detectInstallState()], given the current [installState], how
    [helm list -A -o json] ends, and [JSON.parse]: [parse s] is the list of
    releases, or [None] when parsing [s] or reading its result throws.  Any
    throw inside the [try] gives back the current state. *)
Definition detectInstallState (parse : jsstring -> option (list release))
           (installState : install_state) (result : outcome jsstring)
  : install_state :=
  match result with
  | Thrown _ => installState
  | Returned out =>
    let stdout := trim out in
    if str_falsy stdout then state_of_releases []
    else
      match parse stdout with
      | Some releases => state_of_releases releases
      | None => installState
      end
  end.

(** [Boolean(state.agent || state.dashboard)] *)
Definition hasExistingInstall (state : install_state) : bool :=
  match agent state with
  | Some _ => true
  | None => match dashboard state with Some _ => true | None => false end
  end.

(** [info?.namespace], kept when truthy. *)
Definition truthy_namespace (info : option release_info) : option jsstring :=
  match info with
  | Some i =>
    match info_namespace i with
    | Some ns => if str_falsy ns then None else Some ns
    | None => None
    end
  | None => None
  end.

(** [installState.agent?.namespace || installState.dashboard?.namespace
     || DEFAULT_NAMESPACE] *)
Definition resolveDefaultNamespace (installState : install_state) : jsstring :=
  match truthy_namespace (agent installState) with
  | Some ns => ns
  | None =>
    match truthy_namespace (dashboard installState) with
    | Some ns => ns
    | None => DEFAULT_NAMESPACE
    end
  end.

Definition buildMenuOptions (installState : install_state) : list select_option :=
  if negb (hasExistingInstall installState)
  then
    [ {| opt_label := js "Install ClusterCost (agent + dashboard)";
         opt_value := js "install" |};
      {| opt_label := js "What is ClusterCost?"; opt_value := js "about" |};
      {| opt_label := js "Exit"; opt_value := js "exit" |} ]
  else
    let namespace := resolveDefaultNamespace installState in
    let portForwardLabel :=
      if negb (str_falsy namespace)
      then js "Launch dashboard (port-forward " ++ [183%N] ++ js " ns: "
           ++ namespace ++ js ")"
      else js "Launch dashboard (port-forward)" in
    [ {| opt_label := portForwardLabel; opt_value := js "port-forward" |};
      {| opt_label := js "Upgrade ClusterCost (agent + dashboard)";
         opt_value := js "install" |};
      {| opt_label := js "Uninstall ClusterCost"; opt_value := js "uninstall" |};
      {| opt_label := js "Show debug info"; opt_value := js "debug" |};
      {| opt_label := js "What is ClusterCost?"; opt_value := js "about" |};
      {| opt_label := js "Exit"; opt_value := js "exit" |} ].

(** [x || y] on strings that may be [undefined]. *)
Definition or_string (x : option jsstring) (y : option jsstring) : option jsstring :=
  match x with
  | Some s => if str_falsy s then y else x
  | None => y
  end.

(** The [initialValue] that [run] gives to the main menu. *)
Definition menu_initialValue (installState : install_state) : jsstring :=
  let menuOptions := buildMenuOptions installState in
  let preferredInitial :=
    if hasExistingInstall installState then js "port-forward" else js "install" in
  let found :=
    option_map opt_value
      (find (fun option => str_eqb (opt_value option) preferredInitial) menuOptions) in
  let first := option_map opt_value (nth_error menuOptions 0) in
  match or_string (or_string found first) (Some (js "install")) with
  | Some v => v
  | None => js "install"
  end.

(** The branches of the [switch] in [run]. *)
Inductive menu_branch : Type :=
| HandleInstallFlow
| HandlePortForwardFlow
| HandleUninstallFlow
| ShowDebugInfo
| ShowClusterCostOverview
| StopRunning.

(** The [switch (choice)] of [run]; ['exit'] and the default case both end
    the loop. *)
Definition menu_switch (choice : jsstring) : menu_branch :=
  if str_eqb choice (js "install") then HandleInstallFlow
  else if str_eqb choice (js "port-forward") then HandlePortForwardFlow
  else if str_eqb choice (js "uninstall") then HandleUninstallFlow
  else if str_eqb choice (js "debug") then ShowDebugInfo
  else if str_eqb choice (js "about") then ShowClusterCostOverview
  else StopRunning.

(** ** The propositions the results are stated with *)

(** Some code unit of [s] is white space. *)
Definition has_white_space (s : jsstring) : Prop :=
  exists c, In c s /\ is_white_space c = true.

(** The rational a finite number stands for. *)
Definition to_Q (neg : bool) (m e : Z) : Q :=
  (inject_Z (if neg then - m else m) * 2 ^ e)%Q.

(** [x <= k] and [k < x] in the extended reals, for an integer [k]; neither
    holds of [NaN]. *)
Definition real_le (x : number) (k : Z) : Prop :=
  match x with
  | NaN => False
  | Infinity neg => neg = true
  | Finite n m e => (to_Q n m e <= inject_Z k)%Q
  end.

Definition real_gt (x : number) (k : Z) : Prop :=
  match x with
  | NaN => False
  | Infinity neg => neg = false
  | Finite n m e => (inject_Z k < to_Q n m e)%Q
  end.

(** The three conditions under which [validatePort] rejects a number, read
    on its value. *)
Definition port_rejects (x : number) : Prop :=
  x = NaN \/ real_le x 0 \/ real_gt x 65535.

(** [x] is finite and its value is an integer between [lo] and [hi]. *)
Definition integer_valued_in (x : number) (lo hi : Z) : Prop :=
  exists n m e k,
    x = Finite n m e /\ (to_Q n m e == inject_Z k)%Q /\ lo <= k <= hi.

(** [x] is finite and its value is above 0 and at most 65535. *)
Definition in_port_interval (x : number) : Prop :=
  exists n m e,
    x = Finite n m e /\ (0 < to_Q n m e)%Q /\ (to_Q n m e <= inject_Z 65535)%Q.

(** The reading of C3 on one string: accepted when the trimmed string
    parses to an integer of [1, 65535], rejected with the message when it
    does not. *)
Definition integer_port_rule (s : jsstring) : Prop :=
  (integer_valued_in (StringToNumber (trim s)) 1 65535 ->
   validatePort (VString s) = Normal None)
  /\ (~ integer_valued_in (StringToNumber (trim s)) 1 65535 ->
      validatePort (VString s)
      = Normal (Some (js "Enter a valid TCP port (1-65535)."))).

(** The integer written by a string of decimal digits. *)
Definition decimal_value (ds : jsstring) : Z :=
  fold_left (fun acc c => acc * 10 + (Z.of_N c - 48)) ds 0.

(** * Properties *)

(** ** Trimming *)

Lemma trimStart_nil_iff (s : jsstring) :
  trimStart s = [] <-> forallb is_white_space s = true.
Proof.
  induction s as [|c r IH]; simpl.
  - tauto.
  - destruct (is_white_space c); simpl.
    + exact IH.
    + split; discriminate.
Qed.

Lemma trimStart_head (s : jsstring) (c : code_unit) (r : jsstring) :
  trimStart s = c :: r -> is_white_space c = false.
Proof.
  induction s as [|d t IH]; simpl.
  - discriminate.
  - destruct (is_white_space d) eqn:Hd.
    + exact IH.
    + intros H. injection H as -> _. exact Hd.
Qed.

Lemma trimStart_app (l r : jsstring) :
  trimStart (l ++ r) =
  match trimStart l with
  | [] => trimStart r
  | t => t ++ r
  end.
Proof.
  induction l as [|c l IH]; simpl.
  - reflexivity.
  - destruct (is_white_space c); [exact IH | reflexivity].
Qed.

(** [trimEnd] read from the front of the string. *)
Lemma trimEnd_cons (c : code_unit) (r : jsstring) :
  trimEnd (c :: r) =
  match trimEnd r with
  | [] => if is_white_space c then [] else [c]
  | t => c :: t
  end.
Proof.
  unfold trimEnd. simpl rev at 2. rewrite trimStart_app.
  destruct (trimStart (rev r)) as [|x t] eqn:E.
  - simpl. destruct (is_white_space c); reflexivity.
  - rewrite rev_app_distr. simpl.
    destruct (rev t ++ [x]) eqn:E'; [|reflexivity].
    destruct (rev t); discriminate.
Qed.

Lemma trimEnd_nil_iff (s : jsstring) :
  trimEnd s = [] <-> forallb is_white_space s = true.
Proof.
  induction s as [|c r IH].
  - simpl. unfold trimEnd. simpl. tauto.
  - rewrite trimEnd_cons. simpl.
    destruct (trimEnd r) as [|x t].
    + destruct (is_white_space c); simpl.
      * exact IH.
      * split; discriminate.
    + split; [discriminate|].
      rewrite andb_true_iff. intros [_ H]. apply IH in H. discriminate.
Qed.

(** The trimmed form is empty exactly for a blank string: the empty string
    or one made of white space only. *)
Lemma trim_nil_iff (s : jsstring) :
  trim s = [] <-> forallb is_white_space s = true.
Proof.
  unfold trim. rewrite trimEnd_nil_iff.
  split.
  - intros H. apply trimStart_nil_iff.
    destruct (trimStart s) as [|c r] eqn:E; [reflexivity|].
    apply trimStart_head in E. simpl in H. rewrite E in H. discriminate.
  - intros H. apply trimStart_nil_iff in H. rewrite H. reflexivity.
Qed.

Lemma trimEnd_head (s : jsstring) (c : code_unit) (r : jsstring) :
  trimEnd s = c :: r -> exists r', s = c :: r'.
Proof.
  destruct s as [|d t].
  - unfold trimEnd. simpl. discriminate.
  - rewrite trimEnd_cons.
    destruct (trimEnd t); [destruct (is_white_space d)|]; intros H;
      try discriminate; injection H as -> _; eauto.
Qed.

Lemma trimStart_fixed (s : jsstring) :
  (forall c r, s = c :: r -> is_white_space c = false) -> trimStart s = s.
Proof.
  destruct s as [|c r]; simpl; [reflexivity|].
  intros H. rewrite (H c r eq_refl). reflexivity.
Qed.

(** A trimmed string starts with no white space. *)
Lemma trim_head (s : jsstring) (c : code_unit) (r : jsstring) :
  trim s = c :: r -> is_white_space c = false.
Proof.
  unfold trim. intros H.
  destruct (trimEnd_head _ _ _ H) as [r' E].
  exact (trimStart_head _ _ _ E).
Qed.

Lemma trimEnd_idempotent (s : jsstring) : trimEnd (trimEnd s) = trimEnd s.
Proof.
  induction s as [|c r IH].
  - reflexivity.
  - rewrite trimEnd_cons.
    destruct (trimEnd r) as [|x t] eqn:E.
    + destruct (is_white_space c) eqn:Hc; [reflexivity|].
      rewrite trimEnd_cons. unfold trimEnd at 1. simpl. rewrite Hc. reflexivity.
    + rewrite trimEnd_cons, IH. reflexivity.
Qed.

(** Trimming a trimmed string changes nothing. *)
Lemma trim_idempotent (s : jsstring) : trim (trim s) = trim s.
Proof.
  unfold trim at 1.
  rewrite (trimStart_fixed (trim s)) by (intros c r; apply trim_head).
  unfold trim. apply trimEnd_idempotent.
Qed.

(** ** The namespace and service-name validators *)

Lemma test_white_space_true (s : jsstring) :
  test_white_space s = true <-> has_white_space s.
Proof. unfold test_white_space, has_white_space. apply existsb_exists. Qed.

Lemma test_white_space_false (s : jsstring) :
  test_white_space s = false <-> ~ has_white_space s.
Proof.
  rewrite <- test_white_space_true.
  destruct (test_white_space s); split; congruence.
Qed.

Lemma str_falsy_true (s : jsstring) : str_falsy s = true <-> s = [].
Proof. destruct s; simpl; split; congruence. Qed.

(** Case analysis on the two tests a name validator makes on the trimmed
    string, with the tests read as propositions. *)
Ltac name_rules s :=
  simpl;
  let Hf := fresh "Hf" in
  let Hw := fresh "Hw" in
  destruct (str_falsy (trim s)) eqn:Hf;
  [ apply str_falsy_true in Hf
  | assert (trim s <> []) by (rewrite <- str_falsy_true; congruence);
    destruct (test_white_space (trim s)) eqn:Hw;
    [ apply test_white_space_true in Hw
    | apply test_white_space_false in Hw ] ];
  try reflexivity; try contradiction; try congruence.

(** C1. [validateNamespace] answers "Namespace cannot be empty." for an
    absent input and for a string whose trimmed form is empty, "Namespace
    cannot contain spaces." for a string whose trimmed form is not empty
    and holds a white-space character, and [undefined] for every other
    string.  The three cases exclude each other, so the first rule that
    fails decides. *)
Theorem validateNamespace_rules :
  validateNamespace VUndefined = Normal (Some (js "Namespace cannot be empty."))
  /\ (forall s, trim s = [] ->
        validateNamespace (VString s)
        = Normal (Some (js "Namespace cannot be empty.")))
  /\ (forall s, trim s <> [] -> has_white_space (trim s) ->
        validateNamespace (VString s)
        = Normal (Some (js "Namespace cannot contain spaces.")))
  /\ (forall s, trim s <> [] -> ~ has_white_space (trim s) ->
        validateNamespace (VString s) = Normal None).
Proof.
  split; [reflexivity|].
  repeat split; intros s; intros; name_rules s.
Qed.

Lemma validateNamespace_rules_witness :
  validateNamespace (VString (js "   "))
  = Normal (Some (js "Namespace cannot be empty."))
  /\ validateNamespace (VString (js "prod namespace"))
     = Normal (Some (js "Namespace cannot contain spaces."))
  /\ validateNamespace (VString (js " clustercost ")) = Normal None.
Proof.
  destruct validateNamespace_rules as (_ & Hblank & Hspace & Hok).
  split; [|split].
  - apply Hblank. reflexivity.
  - apply Hspace.
    + vm_compute. discriminate.
    + exists 32%N. split; [vm_compute; tauto | reflexivity].
  - apply Hok.
    + vm_compute. discriminate.
    + rewrite <- test_white_space_false. reflexivity.
Defined.

(** C6. [validateServiceName] has the same three rules with its own texts:
    "Service name is required." for an absent input and for a string whose
    trimmed form is empty, "Service name cannot contain spaces." when the
    non-empty trimmed form holds a white-space character, [undefined]
    otherwise. *)
Theorem validateServiceName_rules :
  validateServiceName VUndefined = Normal (Some (js "Service name is required."))
  /\ (forall s, trim s = [] ->
        validateServiceName (VString s)
        = Normal (Some (js "Service name is required.")))
  /\ (forall s, trim s <> [] -> has_white_space (trim s) ->
        validateServiceName (VString s)
        = Normal (Some (js "Service name cannot contain spaces.")))
  /\ (forall s, trim s <> [] -> ~ has_white_space (trim s) ->
        validateServiceName (VString s) = Normal None).
Proof.
  split; [reflexivity|].
  repeat split; intros s; intros; name_rules s.
Qed.

Lemma validateServiceName_rules_witness :
  validateServiceName (VString (js ""))
  = Normal (Some (js "Service name is required."))
  /\ validateServiceName (VString (js "svc dashboard"))
     = Normal (Some (js "Service name cannot contain spaces."))
  /\ validateServiceName (VString (js " svc-cluster ")) = Normal None.
Proof.
  destruct validateServiceName_rules as (_ & Hblank & Hspace & Hok).
  split; [|split].
  - apply Hblank. reflexivity.
  - apply Hspace.
    + vm_compute. discriminate.
    + exists 32%N. split; [vm_compute; tauto | reflexivity].
  - apply Hok.
    + vm_compute. discriminate.
    + rewrite <- test_white_space_false. reflexivity.
Defined.

(** A blank string, made of white space only, gets the empty-input
    message of either validator. *)
Lemma blank_is_empty_input (s : jsstring) :
  forallb is_white_space s = true ->
  validateNamespace (VString s) = Normal (Some (js "Namespace cannot be empty."))
  /\ validateServiceName (VString s) = Normal (Some (js "Service name is required.")).
Proof.
  intros H. apply trim_nil_iff in H.
  split; name_rules s.
Qed.

(** C9. [null] is treated like an absent input by both name validators:
    the empty-input message is returned and nothing is thrown. *)
Theorem validators_null_as_undefined :
  validateNamespace VNull = Normal (Some (js "Namespace cannot be empty."))
  /\ validateNamespace VNull = validateNamespace VUndefined
  /\ validateServiceName VNull = Normal (Some (js "Service name is required."))
  /\ validateServiceName VNull = validateServiceName VUndefined.
Proof. repeat split. Qed.

(** ** Numbers as reals *)

Lemma two_pow_pos (e : Z) : (0 < 2 ^ e)%Q.
Proof. apply Qpower_0_lt. reflexivity. Qed.

Lemma to_Q_rescale (n : bool) (m e e0 : Z) :
  e0 <= e ->
  (to_Q n m e == inject_Z ((if n then - m else m) * 2 ^ (e - e0)) * 2 ^ e0)%Q.
Proof.
  intros H. unfold to_Q.
  rewrite inject_Z_mult, Zpower_Qpower by lia.
  change (inject_Z 2) with 2%Q.
  rewrite <- Qmult_assoc, <- Qpower_plus by discriminate.
  replace (e - e0 + e0) with e by lia. reflexivity.
Qed.

Lemma finite_real_lt_spec (n1 : bool) (m1 e1 : Z) (n2 : bool) (m2 e2 : Z) :
  finite_real_lt n1 m1 e1 n2 m2 e2 = true <-> (to_Q n1 m1 e1 < to_Q n2 m2 e2)%Q.
Proof.
  unfold finite_real_lt.
  rewrite (to_Q_rescale n1 m1 e1 (Z.min e1 e2)) by lia.
  rewrite (to_Q_rescale n2 m2 e2 (Z.min e1 e2)) by lia.
  rewrite Qmult_lt_r by apply two_pow_pos.
  rewrite <- Zlt_Qlt. apply Z.ltb_lt.
Qed.

Lemma js_le_finite (x : number) (n : bool) (m e : Z) :
  js_le x (Finite n m e) = true <->
  match x with
  | NaN => False
  | Infinity neg => neg = true
  | Finite n' m' e' => (to_Q n' m' e' <= to_Q n m e)%Q
  end.
Proof.
  unfold js_le. destruct x as [|[|]|n' m' e']; simpl;
    try (split; (congruence || tauto)).
  destruct (finite_real_lt n m e n' m' e') eqn:E.
  - apply finite_real_lt_spec in E.
    split; [discriminate|]. intros H. exfalso. exact (Qlt_not_le _ _ E H).
  - split; [|reflexivity]. intros _. apply Qnot_lt_le.
    rewrite <- finite_real_lt_spec. congruence.
Qed.

Lemma js_gt_finite (x : number) (n : bool) (m e : Z) :
  js_gt x (Finite n m e) = true <->
  match x with
  | NaN => False
  | Infinity neg => neg = false
  | Finite n' m' e' => (to_Q n m e < to_Q n' m' e')%Q
  end.
Proof.
  unfold js_gt. destruct x as [|[|]|n' m' e']; simpl;
    try (split; (congruence || tauto)).
  rewrite <- finite_real_lt_spec.
  destruct (finite_real_lt n m e n' m' e'); split; congruence.
Qed.

(** The two literals of [validatePort] are exact. *)
Lemma number_of_Z_0 : number_of_Z 0 = Finite false 0 (-1074).
Proof. reflexivity. Qed.

Lemma number_of_Z_65535 : number_of_Z 65535 = Finite false 9007061815787520 (-37).
Proof. reflexivity. Qed.

Lemma to_Q_0 : (to_Q false 0 (-1074) == inject_Z 0)%Q.
Proof. unfold to_Q. simpl inject_Z. apply Qmult_0_l. Qed.

Lemma to_Q_65535 : (to_Q false 9007061815787520 (-37) == inject_Z 65535)%Q.
Proof. vm_compute. reflexivity. Qed.

(** [numeric <= 0] of the source holds exactly when the value is at most
    zero. *)
Lemma js_le_0_spec (x : number) :
  js_le x (number_of_Z 0) = true <-> real_le x 0.
Proof.
  rewrite number_of_Z_0, js_le_finite.
  destruct x; simpl; try tauto. rewrite to_Q_0. tauto.
Qed.

(** [numeric > 65535] of the source holds exactly when the value is above
    65535. *)
Lemma js_gt_65535_spec (x : number) :
  js_gt x (number_of_Z 65535) = true <-> real_gt x 65535.
Proof.
  rewrite number_of_Z_65535, js_gt_finite.
  destruct x; simpl; try tauto. rewrite to_Q_65535. tauto.
Qed.

(** ** The port validator *)

Lemma isNaN_true (x : number) : isNaN x = true <-> x = NaN.
Proof. destruct x; simpl; split; congruence. Qed.

Lemma port_test_spec (x : number) :
  isNaN x || js_le x (number_of_Z 0) || js_gt x (number_of_Z 65535) = true
  <-> port_rejects x.
Proof.
  unfold port_rejects.
  rewrite !orb_true_iff, isNaN_true, js_le_0_spec, js_gt_65535_spec. tauto.
Qed.

(** What [validatePort] does once the input has been coerced. *)
Lemma port_test_cases (x : number) :
  (port_rejects x ->
   (if isNaN x || js_le x (number_of_Z 0) || js_gt x (number_of_Z 65535)
    then Normal (Some (js "Enter a valid TCP port (1-65535)."))
    else Normal None) = Normal (Some (js "Enter a valid TCP port (1-65535).")))
  /\ (~ port_rejects x ->
      (if isNaN x || js_le x (number_of_Z 0) || js_gt x (number_of_Z 65535)
       then Normal (Some (js "Enter a valid TCP port (1-65535)."))
       else @Normal validation None) = Normal None).
Proof.
  pose proof (port_test_spec x) as Hspec.
  destruct (isNaN x || js_le x (number_of_Z 0) || js_gt x (number_of_Z 65535));
    split; intros H; try reflexivity.
  - exfalso. apply H, Hspec. reflexivity.
  - apply Hspec in H. discriminate.
Qed.

(** C2. On a string, [validatePort] trims it and coerces the trimmed string
    to a number; when that number is NaN, at most 0 or above 65535 the
    result is "Enter a valid TCP port (1-65535).", and otherwise it is
    [undefined].  [" 8080 "] is valid; ["99999"], ["0"], ["-1"] and ["abc"]
    get the message. *)
Theorem validatePort_string_rule :
  (forall s, exists numeric,
      Number (VString (trim s)) = Normal numeric
      /\ (port_rejects numeric ->
          validatePort (VString s)
          = Normal (Some (js "Enter a valid TCP port (1-65535).")))
      /\ (~ port_rejects numeric -> validatePort (VString s) = Normal None))
  /\ validatePort (VString (js " 8080 ")) = Normal None
  /\ validatePort (VString (js "99999"))
     = Normal (Some (js "Enter a valid TCP port (1-65535)."))
  /\ validatePort (VString (js "0"))
     = Normal (Some (js "Enter a valid TCP port (1-65535)."))
  /\ validatePort (VString (js "-1"))
     = Normal (Some (js "Enter a valid TCP port (1-65535)."))
  /\ validatePort (VString (js "abc"))
     = Normal (Some (js "Enter a valid TCP port (1-65535).")).
Proof.
  split; [|repeat split].
  intros s. exists (StringToNumber (trim s)).
  split; [reflexivity|].
  exact (port_test_cases (StringToNumber (trim s))).
Qed.

Lemma validatePort_string_rule_witness :
  validatePort (VString (js "65536"))
  = Normal (Some (js "Enter a valid TCP port (1-65535)."))
  /\ validatePort (VString (js "443")) = Normal None.
Proof.
  split.
  - destruct (proj1 validatePort_string_rule (js "65536")) as (x & Hx & Hrej & _).
    apply Hrej. injection Hx as <-.
    right; right. vm_compute. reflexivity.
  - destruct (proj1 validatePort_string_rule (js "443")) as (x & Hx & _ & Hok).
    apply Hok. injection Hx as <-.
    intros [H | [H | H]]; vm_compute in H;
      solve [discriminate | apply H; reflexivity].
Defined.

(** [Number] on a primitive throws on a Symbol only. *)
Lemma Number_primitive (v : value) :
  v <> VSymbol -> exists numeric, Number v = Normal numeric.
Proof. destruct v; intros H; try (eexists; reflexivity). contradiction. Qed.

(** C10, amended.  On an input that is not a string, [validatePort] throws
    on a Symbol and on nothing else: [undefined] coerces to NaN and [null]
    to 0, so both get the message; a number is taken as it is, a boolean
    and a BigInt are coerced, and each is checked by the same three
    conditions; 8080 is valid. *)
Theorem validatePort_non_string :
  (forall v, (forall s, v <> VString s) ->
             (validatePort v = Throw TypeError <-> v = VSymbol))
  /\ (forall v, (forall s, v <> VString s) -> v <> VSymbol ->
                exists numeric,
                  Number v = Normal numeric
                  /\ (port_rejects numeric ->
                      validatePort v
                      = Normal (Some (js "Enter a valid TCP port (1-65535).")))
                  /\ (~ port_rejects numeric -> validatePort v = Normal None))
  /\ Number VUndefined = Normal NaN
  /\ validatePort VUndefined
     = Normal (Some (js "Enter a valid TCP port (1-65535)."))
  /\ Number VNull = Normal (number_of_Z 0)
  /\ validatePort VNull
     = Normal (Some (js "Enter a valid TCP port (1-65535)."))
  /\ (forall n,
        (port_rejects n ->
         validatePort (VNumber n)
         = Normal (Some (js "Enter a valid TCP port (1-65535).")))
        /\ (~ port_rejects n -> validatePort (VNumber n) = Normal None))
  /\ validatePort (VNumber (number_of_Z 8080)) = Normal None.
Proof.
  assert (Hrule : forall v, (forall s, v <> VString s) -> v <> VSymbol ->
            exists numeric,
              Number v = Normal numeric
              /\ (port_rejects numeric ->
                  validatePort v
                  = Normal (Some (js "Enter a valid TCP port (1-65535).")))
              /\ (~ port_rejects numeric -> validatePort v = Normal None)).
  { intros v Hs Hsym.
    destruct (Number_primitive v Hsym) as [numeric Hn].
    exists numeric. split; [exact Hn|].
    assert (Hv : validatePort v
                 = if isNaN numeric || js_le numeric (number_of_Z 0)
                      || js_gt numeric (number_of_Z 65535)
                   then Normal (Some (js "Enter a valid TCP port (1-65535)."))
                   else Normal None).
    { unfold validatePort.
      destruct v as [| |b|n|z| |s]; try (rewrite Hn; reflexivity).
      exfalso. exact (Hs s eq_refl). }
    rewrite Hv. exact (port_test_cases numeric). }
  split; [|split; [exact Hrule|]].
  - intros v Hs. split.
    + intros Hthrow.
      destruct v as [| |b|n|z| |s]; try reflexivity; exfalso.
      * discriminate.
      * discriminate.
      * unfold validatePort in Hthrow. simpl Number in Hthrow. cbv iota beta in Hthrow.
        destruct (isNaN _ || js_le _ _ || js_gt _ _); discriminate.
      * unfold validatePort in Hthrow. simpl Number in Hthrow. cbv iota beta in Hthrow.
        destruct (isNaN _ || js_le _ _ || js_gt _ _); discriminate.
      * unfold validatePort in Hthrow. simpl Number in Hthrow. cbv iota beta in Hthrow.
        destruct (isNaN _ || js_le _ _ || js_gt _ _); discriminate.
      * exact (Hs s eq_refl).
    + intros ->. reflexivity.
  - repeat (split; [reflexivity|]).
    split; [|reflexivity].
    intros n. exact (port_test_cases n).
Qed.

Lemma validatePort_non_string_witness :
  validatePort (VNumber (number_of_Z 70000))
  = Normal (Some (js "Enter a valid TCP port (1-65535)."))
  /\ validatePort (VNumber (number_of_Z 22)) = Normal None
  /\ (exists numeric,
         Number (VBigInt 3000) = Normal numeric
         /\ (~ port_rejects numeric -> validatePort (VBigInt 3000) = Normal None)).
Proof.
  destruct validatePort_non_string as (_ & Hrule & _ & _ & _ & _ & H & _).
  split; [|split].
  - apply (proj1 (H (number_of_Z 70000))).
    right; right. vm_compute. reflexivity.
  - apply (proj2 (H (number_of_Z 22))).
    intros [E | [E | E]]; vm_compute in E;
      solve [discriminate | apply E; reflexivity].
  - destruct (Hrule (VBigInt 3000)) as (numeric & Hn & _ & Hok);
      [discriminate | discriminate |].
    exists numeric. split; assumption.
Defined.

(** C8. On an input that is a string or absent, each of the three
    validators returns (it does not throw), and what it returns is
    [undefined] or a message that is not the empty string. *)
Theorem validators_total (v : value) :
  v = VUndefined \/ (exists s, v = VString s) ->
  forall validate,
    In validate [validateNamespace; validateServiceName; validatePort] ->
    exists r, validate v = Normal r
              /\ (r = None \/ exists message, r = Some message /\ message <> []).
Proof.
  intros Hv validate Hin.
  simpl in Hin.
  destruct Hin as [<- | [<- | [<- | []]]];
    destruct Hv as [-> | [s ->]]; simpl.
  - eexists; split; [reflexivity|]. right. eexists; split; [reflexivity|discriminate].
  - destruct (str_falsy (trim s)); [|destruct (test_white_space (trim s))];
      eexists; (split; [reflexivity|]);
      try (right; eexists; split; [reflexivity|discriminate]); left; reflexivity.
  - eexists; split; [reflexivity|]. right. eexists; split; [reflexivity|discriminate].
  - destruct (str_falsy (trim s)); [|destruct (test_white_space (trim s))];
      eexists; (split; [reflexivity|]);
      try (right; eexists; split; [reflexivity|discriminate]); left; reflexivity.
  - eexists; split; [reflexivity|]. right. eexists; split; [reflexivity|discriminate].
  - unfold validatePort. simpl Number. cbv iota beta.
    destruct (isNaN _ || js_le _ _ || js_gt _ _);
      eexists; (split; [reflexivity|]);
      try (right; eexists; split; [reflexivity|discriminate]); left; reflexivity.
Qed.

Lemma validators_total_witness :
  exists r, validatePort (VString (js "8080")) = Normal r
            /\ (r = None \/ exists message, r = Some message /\ message <> []).
Proof.
  apply (validators_total (VString (js "8080"))).
  - right. exists (js "8080"). reflexivity.
  - simpl. tauto.
Defined.

(** The name validators do throw on a primitive that has no [trim]. *)
Lemma name_validators_throw_on_number (n : number) :
  validateNamespace (VNumber n) = Throw TypeError
  /\ validateServiceName (VNumber n) = Throw TypeError.
Proof. split; reflexivity. Qed.

(** [Number] trims on its own, so trimming first does not change what a
    string is coerced to. *)
Lemma StringToNumber_trim (s : jsstring) :
  StringToNumber (trim s) = StringToNumber s.
Proof. unfold StringToNumber. rewrite trim_idempotent. reflexivity. Qed.

Lemma in_port_interval_iff (x : number) :
  in_port_interval x <-> ~ port_rejects x.
Proof.
  unfold in_port_interval, port_rejects. split.
  - intros (n & m & e & -> & Hpos & Hle). simpl.
    intros [H | [H | H]].
    + discriminate.
    + exact (Qlt_not_le _ _ Hpos H).
    + exact (Qlt_not_le _ _ H Hle).
  - intros H. destruct x as [|neg|n m e]; simpl in H.
    + exfalso. apply H. left. reflexivity.
    + exfalso. apply H. right. destruct neg; [left | right]; reflexivity.
    + exists n, m, e. split; [reflexivity|]. split.
      * apply Qnot_le_lt. intros Hle. apply H. right; left. exact Hle.
      * apply Qnot_lt_le. intros Hlt. apply H. right; right. exact Hlt.
Qed.

Lemma integer_valued_in_port_interval (x : number) :
  integer_valued_in x 1 65535 -> in_port_interval x.
Proof.
  intros (n & m & e & k & -> & Hk & Hrange).
  exists n, m, e. split; [reflexivity|]. rewrite Hk. split.
  - change 0%Q with (inject_Z 0). rewrite <- Zlt_Qlt. lia.
  - rewrite <- Zle_Qle. lia.
Qed.

(** C3.  The claim is that only integers of [1, 65535] are accepted.  The
    code has no test for that: ["80.5"] and ["0.5"] parse to numbers that
    are not integers, and [validatePort] returns [undefined] for both, so
    the rule of the claim does not hold of ["80.5"]. *)
Theorem validatePort_accepts_fractional_port :
  validatePort (VString (js "80.5")) = Normal None
  /\ validatePort (VString (js "0.5")) = Normal None
  /\ ~ integer_valued_in (StringToNumber (trim (js "80.5"))) 1 65535
  /\ ~ integer_valued_in (StringToNumber (trim (js "0.5"))) 1 65535
  /\ ~ integer_port_rule (js "80.5").
Proof.
  assert (H80 : ~ integer_valued_in (StringToNumber (trim (js "80.5"))) 1 65535).
  { intros (n & m & e & k & Hx & Hk & _).
    vm_compute in Hx. injection Hx as <- <- <-.
    assert (Hv : (to_Q false 5664683906301952 (-46) == 161 # 2)%Q)
      by (vm_compute; reflexivity).
    rewrite Hv in Hk. unfold Qeq in Hk. simpl in Hk. lia. }
  assert (H05 : ~ integer_valued_in (StringToNumber (trim (js "0.5"))) 1 65535).
  { intros (n & m & e & k & Hx & Hk & _).
    vm_compute in Hx. injection Hx as <- <- <-.
    assert (Hv : (to_Q false 4503599627370496 (-53) == 1 # 2)%Q)
      by (vm_compute; reflexivity).
    rewrite Hv in Hk. unfold Qeq in Hk. simpl in Hk. lia. }
  split; [reflexivity|]. split; [reflexivity|].
  split; [exact H80|]. split; [exact H05|].
  intros [_ H]. specialize (H H80). vm_compute in H. discriminate.
Qed.

(** What the three tests of [validatePort] accept, as they are written: a
    string is accepted exactly when its trimmed form parses to a finite
    number above 0 and at most 65535; every string whose trimmed form
    parses to an integer of [1, 65535] is among them, and every string
    that is not accepted gets the message. *)
Theorem validatePort_accepts_iff (s : jsstring) :
  (validatePort (VString s) = Normal None
   <-> in_port_interval (StringToNumber (trim s)))
  /\ (integer_valued_in (StringToNumber (trim s)) 1 65535 ->
      validatePort (VString s) = Normal None)
  /\ (validatePort (VString s) <> Normal None ->
      validatePort (VString s)
      = Normal (Some (js "Enter a valid TCP port (1-65535)."))).
Proof.
  assert (Hiff : validatePort (VString s) = Normal None
                 <-> in_port_interval (StringToNumber (trim s))).
  { rewrite in_port_interval_iff, <- port_test_spec.
    unfold validatePort. simpl Number. cbv iota beta.
    destruct (isNaN _ || js_le _ _ || js_gt _ _); split; congruence. }
  split; [exact Hiff|]. split.
  - intros H. apply Hiff, integer_valued_in_port_interval, H.
  - unfold validatePort. simpl Number. cbv iota beta.
    destruct (isNaN _ || js_le _ _ || js_gt _ _); congruence.
Qed.

Lemma validatePort_accepts_iff_witness :
  validatePort (VString (js "65535")) = Normal None
  /\ validatePort (VString (js "1e5"))
     = Normal (Some (js "Enter a valid TCP port (1-65535).")).
Proof.
  split.
  - apply (proj1 (proj2 (validatePort_accepts_iff (js "65535")))).
    exists false, 9007061815787520, (-37), 65535.
    split; [reflexivity|]. split; [vm_compute; reflexivity | lia].
  - apply (proj2 (proj2 (validatePort_accepts_iff (js "1e5")))).
    vm_compute. discriminate.
Defined.

(** ** The dashboard Helm arguments *)

Lemma AGENT_SERVICE_HOST_value :
  AGENT_SERVICE_HOST = js "clustercost-agent-clustercost-agent-k8s".
Proof. reflexivity. Qed.

Lemma buildAgentBaseUrl_value (namespace : jsstring) :
  buildAgentBaseUrl namespace
  = js "http://clustercost-agent-clustercost-agent-k8s." ++ namespace
    ++ js ".svc.cluster.local:8080".
Proof. reflexivity. Qed.

Lemma str_eqb_true (a b : jsstring) : str_eqb a b = true <-> a = b.
Proof. unfold str_eqb. destruct (jsstring_eq_dec a b); split; congruence. Qed.

(** C4. The two tokens ["--set-string"] and
    ["agents[0].baseUrl=http://clustercost-agent-clustercost-agent-k8s.<namespace>.svc.cluster.local:8080"]
    are appended to the six fixed tokens exactly when the namespace is not
    the string ["clustercost"]; for ["team-a"] the result holds
    ["--set-string"] with the override for [team-a] right after it. *)
Theorem buildDashboardHelmArgs_override :
  (forall namespace,
      namespace <> js "clustercost" <->
      buildDashboardHelmArgs namespace
      = [js "upgrade"; js "--install"; js "clustercost-dashboard";
         js "clustercost/clustercost-dashboard"; js "-n"; namespace]
        ++ [js "--set-string";
            js "agents[0].baseUrl=http://clustercost-agent-clustercost-agent-k8s."
            ++ namespace ++ js ".svc.cluster.local:8080"])
  /\ (exists before after,
         buildDashboardHelmArgs (js "team-a")
         = before
           ++ [js "--set-string";
               js "agents[0].baseUrl=http://clustercost-agent-clustercost-agent-k8s.team-a.svc.cluster.local:8080"]
           ++ after).
Proof.
  split.
  - intros namespace. unfold buildDashboardHelmArgs.
    destruct (str_eqb namespace DEFAULT_NAMESPACE) eqn:E; simpl negb; cbv iota.
    + apply str_eqb_true in E. split; [contradiction|].
      intros H. apply (f_equal (@List.length jsstring)) in H. discriminate.
    + split; [reflexivity|]. intros _ Heq.
      assert (str_eqb namespace DEFAULT_NAMESPACE = true)
        by (apply str_eqb_true; exact Heq).
      congruence.
  - eexists [_; _; _; _; _; _], []. reflexivity.
Qed.

Lemma buildDashboardHelmArgs_override_witness :
  buildDashboardHelmArgs (js "prod")
  = [js "upgrade"; js "--install"; js "clustercost-dashboard";
     js "clustercost/clustercost-dashboard"; js "-n"; js "prod";
     js "--set-string";
     js "agents[0].baseUrl=http://clustercost-agent-clustercost-agent-k8s.prod.svc.cluster.local:8080"].
Proof.
  apply (proj1 (proj1 buildDashboardHelmArgs_override (js "prod"))).
  vm_compute. discriminate.
Defined.

(** C5. For the namespace ["clustercost"], the default, the result is the
    six fixed tokens and nothing else: no ["--set-string"] and no token
    that starts with the override key. *)
Theorem buildDashboardHelmArgs_default :
  DEFAULT_NAMESPACE = js "clustercost"
  /\ buildDashboardHelmArgs (js "clustercost")
     = [js "upgrade"; js "--install"; js "clustercost-dashboard";
        js "clustercost/clustercost-dashboard"; js "-n"; js "clustercost"]
  /\ ~ In (js "--set-string") (buildDashboardHelmArgs (js "clustercost"))
  /\ (forall rest,
         ~ In (js "agents[0].baseUrl=" ++ rest)
              (buildDashboardHelmArgs (js "clustercost"))).
Proof.
  split; [reflexivity|]. split; [reflexivity|]. split.
  - vm_compute. intuition discriminate.
  - intros rest. vm_compute. intuition discriminate.
Qed.

(** ** The store version *)

Lemma update_last (h : Heap.store) (a : list jsstring)
      (f : list jsstring -> list jsstring) :
  Heap.update (List.length h) f (h ++ [a]) = h ++ [f a].
Proof.
  induction h as [|x h IH]; simpl.
  - reflexivity.
  - rewrite IH. reflexivity.
Qed.

Lemma read_new (h : Heap.store) (a : list jsstring) (t : Heap.store) :
  Heap.read (List.length h) (h ++ a :: t) = Some a.
Proof.
  unfold Heap.read. induction h as [|x h IH]; simpl; [reflexivity | exact IH].
Qed.

(** One call on any store: the store gains one array, whose content is
    the list the function on values computes; what was there is kept. *)
Lemma heap_buildDashboardHelmArgs_run (namespace : jsstring) (h : Heap.store) :
  Heap.buildDashboardHelmArgs namespace h
  = (List.length h, h ++ [buildDashboardHelmArgs namespace]).
Proof.
  unfold Heap.buildDashboardHelmArgs, buildDashboardHelmArgs, Heap.bind,
    Heap.new_array, Heap.array_push, Heap.ret, push.
  destruct (negb (str_eqb namespace DEFAULT_NAMESPACE)).
  - rewrite update_last. reflexivity.
  - reflexivity.
Qed.

(** C7. Two calls in a row with the same namespace, from any store: the
    second call is not disturbed by what the first one did; the two arrays
    returned are distinct objects with the same elements in the same
    order, and these depend on the namespace alone. *)
Theorem buildDashboardHelmArgs_deterministic (namespace : jsstring) (h : Heap.store) :
  let (r1, h1) := Heap.buildDashboardHelmArgs namespace h in
  let (r2, h2) := Heap.buildDashboardHelmArgs namespace h1 in
  r1 <> r2
  /\ Heap.read r1 h2 = Heap.read r2 h2
  /\ Heap.read r1 h1 = Heap.read r2 h2
  /\ Heap.read r2 h2 = Some (buildDashboardHelmArgs namespace).
Proof.
  rewrite heap_buildDashboardHelmArgs_run.
  rewrite heap_buildDashboardHelmArgs_run.
  rewrite length_app. simpl List.length.
  assert (H1 : Heap.read (List.length h) (h ++ [buildDashboardHelmArgs namespace])
               = Some (buildDashboardHelmArgs namespace)) by apply read_new.
  assert (H2 : Heap.read (List.length h)
                 ((h ++ [buildDashboardHelmArgs namespace])
                    ++ [buildDashboardHelmArgs namespace])
               = Some (buildDashboardHelmArgs namespace))
    by (rewrite <- app_assoc; apply read_new).
  assert (H3 : Heap.read (List.length h + 1)%nat
                 ((h ++ [buildDashboardHelmArgs namespace])
                    ++ [buildDashboardHelmArgs namespace])
               = Some (buildDashboardHelmArgs namespace)).
  { replace (List.length h + 1)%nat
      with (List.length (h ++ [buildDashboardHelmArgs namespace]))
      by (rewrite length_app; reflexivity).
    apply read_new. }
  repeat split; try congruence. lia.
Qed.

(** ** Strings of decimal digits *)

Lemma is_decimal_digit_range (c : code_unit) :
  is_decimal_digit c = true <-> (48 <= c <= 57)%N.
Proof.
  unfold is_decimal_digit. rewrite andb_true_iff, !N.leb_le. tauto.
Qed.

Lemma digit_in_base_10 (c : code_unit) :
  is_decimal_digit c = true -> digit_in_base 10 c = Some (Z.of_N c - 48).
Proof.
  intros H. unfold digit_in_base, hex_digit_value.
  fold (is_decimal_digit c). rewrite H.
  apply is_decimal_digit_range in H.
  replace (Z.of_N c - 48 <? 10) with true; [reflexivity|].
  symmetry. apply Z.ltb_lt. lia.
Qed.

Lemma digits_value_decimal (ds : jsstring) (acc : Z) :
  forallb is_decimal_digit ds = true ->
  digits_value 10 acc ds
  = Some (fold_left (fun a c => a * 10 + (Z.of_N c - 48)) ds acc).
Proof.
  revert acc. induction ds as [|c r IH]; intros acc H; simpl.
  - reflexivity.
  - simpl in H. apply andb_true_iff in H. destruct H as [Hc Hr].
    rewrite (digit_in_base_10 c Hc). apply IH, Hr.
Qed.

Lemma fold_digits_nonneg (ds : jsstring) (acc : Z) :
  forallb is_decimal_digit ds = true -> 0 <= acc ->
  0 <= fold_left (fun a c => a * 10 + (Z.of_N c - 48)) ds acc.
Proof.
  revert acc. induction ds as [|c r IH]; intros acc H Hacc; simpl.
  - exact Hacc.
  - simpl in H. apply andb_true_iff in H. destruct H as [Hc Hr].
    apply is_decimal_digit_range in Hc. apply IH; [exact Hr | lia].
Qed.

Lemma decimal_value_nonneg (ds : jsstring) :
  forallb is_decimal_digit ds = true -> 0 <= decimal_value ds.
Proof. intros H. apply fold_digits_nonneg; [exact H | lia]. Qed.

Lemma span_digits_all (ds : jsstring) :
  forallb is_decimal_digit ds = true -> span_digits ds = (ds, []).
Proof.
  induction ds as [|c r IH]; simpl; intros H.
  - reflexivity.
  - apply andb_true_iff in H. destruct H as [Hc Hr].
    rewrite Hc, (IH Hr). reflexivity.
Qed.

Lemma parse_digits_unsigned (ds : jsstring) :
  ds <> [] -> forallb is_decimal_digit ds = true ->
  parse_StrUnsignedDecimalLiteral ds = Some (decimal_value ds, 0).
Proof.
  intros Hne H. unfold parse_StrUnsignedDecimalLiteral.
  rewrite (span_digits_all ds H). rewrite app_nil_r.
  destruct ds as [|c r]; [contradiction|].
  rewrite (digits_value_decimal (c :: r) 0 H). reflexivity.
Qed.

Lemma parse_digits_numeric (ds : jsstring) :
  ds <> [] -> forallb is_decimal_digit ds = true ->
  parse_StrNumericLiteral ds = Some (round_binary64 false (decimal_value ds) 1).
Proof.
  intros Hne H. unfold parse_StrNumericLiteral, parse_StrDecimalLiteral.
  destruct ds as [|c r] eqn:E; [contradiction|]. rewrite <- E in *.
  assert (Hc : (48 <= c <= 57)%N).
  { apply is_decimal_digit_range. rewrite E in H. simpl in H.
    apply andb_true_iff in H. tauto. }
  replace (c =? 43)%N with false by (symmetry; apply N.eqb_neq; lia).
  replace (c =? 45)%N with false by (symmetry; apply N.eqb_neq; lia).
  replace (str_eqb ds (js "Infinity")) with false.
  - rewrite (parse_digits_unsigned ds Hne H). unfold round_decimal. simpl.
    rewrite Z.mul_1_r. reflexivity.
  - symmetry. unfold str_eqb. destruct (jsstring_eq_dec ds (js "Infinity")) as [Heq|]; [|reflexivity].
    rewrite E in Heq. injection Heq as Heq _. lia.
Qed.

(** A string that trims to decimal digits is coerced to the Number value of
    the integer the digits write. *)
Lemma StringToNumber_digits (s : jsstring) :
  trim s <> [] -> forallb is_decimal_digit (trim s) = true ->
  StringToNumber s = round_binary64 false (decimal_value (trim s)) 1.
Proof.
  intros Hne H. unfold StringToNumber.
  destruct (trim s) as [|c r]; [contradiction|].
  rewrite (parse_digits_numeric _ Hne H). reflexivity.
Qed.

(** ** Rounding of integers *)

Lemma floor_log2_integer (v : Z) : 0 < v -> floor_log2 v 1 = Z.log2 v.
Proof.
  intros Hv. unfold floor_log2, scale2. simpl Z.log2. rewrite Z.sub_0_r.
  pose proof (Z.log2_nonneg v) as Hl.
  destruct (Z.log2_spec v Hv) as [Hlo _].
  replace (0 <=? Z.log2 v) with true by (symmetry; apply Z.leb_le; lia).
  replace (v <? 1 * 2 ^ Z.log2 v) with false; [reflexivity|].
  symmetry. apply Z.ltb_ge. lia.
Qed.

Lemma div_nearest_even_1 (n : Z) : div_nearest_even n 1 = n.
Proof.
  unfold div_nearest_even. rewrite Z.mod_1_r, Z.div_1_r. reflexivity.
Qed.

Lemma div_nearest_even_lower (n d : Z) : n / d <= div_nearest_even n d.
Proof.
  unfold div_nearest_even.
  destruct (2 * (n mod d) <? d); [lia|].
  destruct (d <? 2 * (n mod d)); [lia|].
  destruct (Z.even (n / d)); lia.
Qed.

(** The integer scaled to a 53-bit significand, for [0 < v < 2^53]. *)
Lemma scale2_small_integer (v : Z) :
  0 < v < 2 ^ 53 ->
  scale2 v 1 (Z.log2 v - 52) = (v * 2 ^ (52 - Z.log2 v), 1)
  /\ v * 2 ^ (52 - Z.log2 v) < 2 ^ 53.
Proof.
  intros [Hv Hlt].
  pose proof (Z.log2_nonneg v) as Hl.
  assert (Hl53 : Z.log2 v < 53) by (apply Z.log2_lt_pow2; lia).
  destruct (Z.log2_spec v Hv) as [_ Hhi].
  split.
  - unfold scale2. destruct (0 <=? Z.log2 v - 52) eqn:E.
    + apply Z.leb_le in E. assert (Z.log2 v = 52) as -> by lia.
      simpl. f_equal. lia.
    + f_equal. f_equal. f_equal. lia.
  - replace (2 ^ 53) with (2 ^ (Z.succ (Z.log2 v)) * 2 ^ (52 - Z.log2 v)).
    + apply Z.mul_lt_mono_pos_r; [apply Z.pow_pos_nonneg; lia | exact Hhi].
    + rewrite <- Z.pow_add_r by lia. f_equal. lia.
Qed.

(** An integer below [2^53] is a binary64 number: rounding keeps it. *)
Lemma round_small_integer (neg : bool) (v : Z) :
  0 < v < 2 ^ 53 ->
  round_binary64 neg v 1
  = Finite neg (v * 2 ^ (52 - Z.log2 v)) (Z.log2 v - 52).
Proof.
  intros Hv. unfold round_binary64.
  replace (v <=? 0) with false by (symmetry; apply Z.leb_gt; lia).
  rewrite floor_log2_integer by lia.
  pose proof (Z.log2_nonneg v) as Hl.
  assert (Hl53 : Z.log2 v < 53) by (apply Z.log2_lt_pow2; lia).
  rewrite Z.max_l by lia.
  destruct (scale2_small_integer v Hv) as [-> Hm].
  rewrite div_nearest_even_1.
  replace (v * 2 ^ (52 - Z.log2 v) =? 2 ^ 53) with false
    by (symmetry; apply Z.eqb_neq; lia).
  replace (971 <? Z.log2 v - 52) with false by (symmetry; apply Z.ltb_ge; lia).
  reflexivity.
Qed.

Lemma to_Q_small_integer (v : Z) :
  0 <= Z.log2 v <= 52 ->
  (to_Q false (v * 2 ^ (52 - Z.log2 v)) (Z.log2 v - 52) == inject_Z v)%Q.
Proof.
  intros Hl. unfold to_Q.
  rewrite inject_Z_mult, Zpower_Qpower by lia.
  change (inject_Z 2) with 2%Q.
  rewrite <- Qmult_assoc, <- Qpower_plus by discriminate.
  replace (52 - Z.log2 v + (Z.log2 v - 52)) with 0 by lia.
  simpl. apply Qmult_1_r.
Qed.

(** A significand of at least [2^52] at an exponent of at least [-36] is a
    value of at least 65536. *)
Lemma to_Q_above_65535 (m e : Z) :
  2 ^ 52 <= m -> -36 <= e -> (inject_Z 65535 < to_Q false m e)%Q.
Proof.
  intros Hm He.
  rewrite (to_Q_rescale false m e (-36)) by lia.
  assert (H65 : (inject_Z 65535 == inject_Z (65535 * 2 ^ 36) * 2 ^ (-36))%Q)
    by (vm_compute; reflexivity).
  rewrite H65, Qmult_lt_r by apply two_pow_pos.
  rewrite <- Zlt_Qlt.
  assert (0 < 2 ^ (e - -36)) by (apply Z.pow_pos_nonneg; lia).
  change (65535 * 2 ^ 36) with 4503530907893760.
  change (2 ^ 52) with 4503599627370496 in Hm. nia.
Qed.

(** An integer of 65536 or more rounds to a number above 65535. *)
Lemma round_large_integer (v : Z) :
  65536 <= v -> real_gt (round_binary64 false v 1) 65535.
Proof.
  intros Hv. unfold round_binary64.
  replace (v <=? 0) with false by (symmetry; apply Z.leb_gt; lia).
  rewrite floor_log2_integer by lia.
  assert (Hl : 16 <= Z.log2 v)
    by (change 16 with (Z.log2 65536); apply Z.log2_le_mono; exact Hv).
  destruct (Z.log2_spec v ltac:(lia)) as [Hlo _].
  rewrite Z.max_l by lia.
  destruct (scale2 v 1 (Z.log2 v - 52)) as [n d] eqn:Es.
  assert (Hm : 2 ^ 52 <= div_nearest_even n d).
  { etransitivity; [|apply div_nearest_even_lower].
    unfold scale2 in Es. rewrite Z.mul_1_l in Es.
    destruct (0 <=? Z.log2 v - 52) eqn:E; injection Es as <- <-.
    - apply Z.leb_le in E.
      apply Z.div_le_lower_bound; [apply Z.pow_pos_nonneg; lia|].
      rewrite <- Z.pow_add_r by lia.
      replace (Z.log2 v - 52 + 52) with (Z.log2 v) by lia. exact Hlo.
    - apply Z.leb_gt in E. rewrite Z.div_1_r.
      replace (2 ^ 52) with (2 ^ Z.log2 v * 2 ^ (- (Z.log2 v - 52))).
      + apply Z.mul_le_mono_nonneg_r; [apply Z.pow_nonneg; lia | exact Hlo].
      + rewrite <- Z.pow_add_r by lia. f_equal. lia. }
  destruct (div_nearest_even n d =? 2 ^ 53).
  - destruct (971 <? Z.log2 v - 52 + 1); simpl; [reflexivity|].
    apply to_Q_above_65535; lia.
  - destruct (971 <? Z.log2 v - 52); simpl; [reflexivity|].
    apply to_Q_above_65535; lia.
Qed.

(** X1. A string that trims to decimal digits is accepted by [validatePort]
    exactly when the integer it writes is in [1, 65535], however many
    digits it has. *)
Lemma validatePort_decimal_digits (s : jsstring) :
  trim s <> [] -> forallb is_decimal_digit (trim s) = true ->
  (validatePort (VString s) = Normal None
   <-> 1 <= decimal_value (trim s) <= 65535).
Proof.
  intros Hne Hd.
  pose proof (decimal_value_nonneg _ Hd) as Hv.
  assert (Hacc : validatePort (VString s) = Normal None
                 <-> ~ port_rejects (StringToNumber (trim s))).
  { rewrite <- port_test_spec. unfold validatePort. simpl Number. cbv iota beta.
    destruct (isNaN _ || js_le _ _ || js_gt _ _); split; congruence. }
  rewrite Hacc, StringToNumber_trim, (StringToNumber_digits s Hne Hd).
  set (v := decimal_value (trim s)) in *.
  destruct (Z.eq_dec v 0) as [E0 | N0].
  - rewrite E0. split; [|lia]. intros H. exfalso. apply H.
    right; left. simpl. rewrite to_Q_0. apply Qle_refl.
  - destruct (Z_le_gt_dec v 65535) as [Hle | Hgt].
    + split; [lia|]. intros _.
      assert (Hl : 0 <= Z.log2 v <= 52).
      { split; [apply Z.log2_nonneg|].
        assert (Z.log2 v < 53) by (apply Z.log2_lt_pow2; lia). lia. }
      rewrite round_small_integer by lia.
      apply in_port_interval_iff. eexists _, _, _. split; [reflexivity|].
      rewrite to_Q_small_integer by exact Hl.
      split; [change 0%Q with (inject_Z 0); rewrite <- Zlt_Qlt | rewrite <- Zle_Qle]; lia.
    + split; [|lia]. intros H. exfalso. apply H.
      right; right. apply round_large_integer. lia.
Qed.

(** ** Outside the validators' contract *)

(** C10 as stated fails: a Symbol is an input that is not a string, [Number]
    throws a TypeError on it, and [validatePort] with it. *)
Lemma validatePort_symbol_throws : validatePort VSymbol = Throw TypeError.
Proof. reflexivity. Qed.

(** A boolean and a BigInt are coerced and checked like a number. *)
Lemma validatePort_boolean_bigint :
  validatePort (VBoolean true) = Normal None
  /\ validatePort (VBoolean false)
     = Normal (Some (js "Enter a valid TCP port (1-65535)."))
  /\ validatePort (VBigInt 3000) = Normal None.
Proof. repeat split. Qed.

(** ** The unit tests of the repository *)

Example test_validates_namespaces :
  validateNamespace (VString (js "clustercost")) = Normal None
  /\ validateNamespace (VString (js ""))
     = Normal (Some (js "Namespace cannot be empty."))
  /\ validateNamespace (VString (js "prod namespace"))
     = Normal (Some (js "Namespace cannot contain spaces."))
  /\ validateNamespace (VString (js "   "))
     = Normal (Some (js "Namespace cannot be empty.")).
Proof. repeat split. Qed.

Example test_validates_service_names :
  validateServiceName (VString (js "svc-clustercost")) = Normal None
  /\ validateServiceName (VString (js ""))
     = Normal (Some (js "Service name is required."))
  /\ validateServiceName (VString (js "svc dashboard"))
     = Normal (Some (js "Service name cannot contain spaces."))
  /\ validateServiceName (VString (js " svc-cluster ")) = Normal None.
Proof. repeat split. Qed.

Example test_validates_ports :
  validatePort (VString (js "8080")) = Normal None
  /\ validatePort (VString (js "0"))
     = Normal (Some (js "Enter a valid TCP port (1-65535)."))
  /\ validatePort (VString (js "99999"))
     = Normal (Some (js "Enter a valid TCP port (1-65535)."))
  /\ validatePort (VString (js "abc"))
     = Normal (Some (js "Enter a valid TCP port (1-65535)."))
  /\ validatePort (VString (js " 8080 ")) = Normal None
  /\ validatePort (VString (js "-1"))
     = Normal (Some (js "Enter a valid TCP port (1-65535).")).
Proof. repeat split. Qed.

Example test_keeps_defaults :
  ~ In (js "--set-string") (buildDashboardHelmArgs (js "clustercost")).
Proof. vm_compute. intuition discriminate. Qed.

Example test_overrides_agent_base_url :
  In (js "--set-string") (buildDashboardHelmArgs (js "team-a"))
  /\ In (js "agents[0].baseUrl=http://clustercost-agent-clustercost-agent-k8s.team-a.svc.cluster.local:8080")
        (buildDashboardHelmArgs (js "team-a")).
Proof. split; vm_compute; tauto. Qed.

(** ** More on trimming *)

Lemma trimStart_decompose (s : jsstring) :
  exists pre, s = pre ++ trimStart s /\ forallb is_white_space pre = true.
Proof.
  induction s as [|c r (pre & E & Hpre)]; simpl.
  - exists []. split; reflexivity.
  - destruct (is_white_space c) eqn:Hc.
    + exists (c :: pre). simpl. rewrite Hc, Hpre. split; [congruence | reflexivity].
    + exists []. split; reflexivity.
Qed.

Lemma forallb_rev {A : Type} (f : A -> bool) (l : list A) :
  forallb f (rev l) = forallb f l.
Proof.
  induction l as [|a l IH]; simpl; [reflexivity|].
  rewrite forallb_app, IH. simpl. rewrite andb_true_r. apply andb_comm.
Qed.

Lemma trimEnd_decompose (s : jsstring) :
  exists post, s = trimEnd s ++ post /\ forallb is_white_space post = true.
Proof.
  destruct (trimStart_decompose (rev s)) as (pre & E & Hpre).
  exists (rev pre). split.
  - unfold trimEnd. rewrite <- rev_app_distr, <- E. symmetry. apply rev_involutive.
  - rewrite forallb_rev. exact Hpre.
Qed.

(** The trimmed form is the string without a run of white space at each
    end. *)
Lemma trim_decompose (s : jsstring) :
  exists pre post,
    s = pre ++ trim s ++ post
    /\ forallb is_white_space pre = true
    /\ forallb is_white_space post = true.
Proof.
  destruct (trimStart_decompose s) as (pre & E & Hpre).
  destruct (trimEnd_decompose (trimStart s)) as (post & E' & Hpost).
  exists pre, post. unfold trim. rewrite <- E'. auto.
Qed.

Lemma trimStart_blank_prefix (pre s : jsstring) :
  forallb is_white_space pre = true -> trimStart (pre ++ s) = trimStart s.
Proof.
  induction pre as [|c r IH]; simpl; intros H; [reflexivity|].
  apply andb_true_iff in H. destruct H as [Hc Hr]. rewrite Hc. apply IH, Hr.
Qed.

Lemma trimEnd_blank_suffix (s post : jsstring) :
  forallb is_white_space post = true -> trimEnd (s ++ post) = trimEnd s.
Proof.
  intros H. unfold trimEnd. rewrite rev_app_distr.
  rewrite trimStart_blank_prefix by (rewrite forallb_rev; exact H). reflexivity.
Qed.

(** White space added at either end does not change the trimmed form. *)
Lemma trim_padding (pre s post : jsstring) :
  forallb is_white_space pre = true ->
  forallb is_white_space post = true ->
  trim (pre ++ s ++ post) = trim s.
Proof.
  intros Hpre Hpost. unfold trim.
  rewrite trimStart_blank_prefix by exact Hpre.
  rewrite trimStart_app.
  destruct (trimStart s) as [|c t] eqn:E.
  - rewrite (proj2 (trimStart_nil_iff post) Hpost). reflexivity.
  - apply trimEnd_blank_suffix, Hpost.
Qed.

Lemma trim_last (s u : jsstring) (c : code_unit) :
  trim s = u ++ [c] -> is_white_space c = false.
Proof.
  unfold trim, trimEnd. intros H.
  apply (f_equal (@rev code_unit)) in H.
  rewrite rev_involutive, rev_app_distr in H. simpl in H.
  exact (trimStart_head _ _ _ H).
Qed.

Lemma In_trim (s : jsstring) (c : code_unit) : In c (trim s) -> In c s.
Proof.
  destruct (trim_decompose s) as (pre & post & E & _ & _).
  intros H. rewrite E. apply in_or_app. right. apply in_or_app. left. exact H.
Qed.

(** A string without any white space is its own trimmed form. *)
Lemma trim_no_white_space (s : jsstring) :
  test_white_space s = false -> trim s = s.
Proof.
  intros H.
  assert (Hall : forall c, In c s -> is_white_space c = false).
  { intros c Hc. destruct (is_white_space c) eqn:E; [|reflexivity].
    assert (test_white_space s = true)
      by (apply existsb_exists; exists c; split; assumption).
    congruence. }
  unfold trim.
  rewrite (trimStart_fixed s)
    by (intros c r ->; apply Hall; left; reflexivity).
  unfold trimEnd.
  rewrite (trimStart_fixed (rev s)).
  - apply rev_involutive.
  - intros c r E. apply Hall. apply in_rev. rewrite E. left. reflexivity.
Qed.

(** ** More on the validators *)

Lemma validateNamespace_string (s : jsstring) :
  validateNamespace (VString s)
  = if str_falsy (trim s) then Normal (Some (js "Namespace cannot be empty."))
    else if test_white_space (trim s)
         then Normal (Some (js "Namespace cannot contain spaces."))
         else Normal None.
Proof. reflexivity. Qed.

Lemma validateServiceName_string (s : jsstring) :
  validateServiceName (VString s)
  = if str_falsy (trim s) then Normal (Some (js "Service name is required."))
    else if test_white_space (trim s)
         then Normal (Some (js "Service name cannot contain spaces."))
         else Normal None.
Proof. reflexivity. Qed.

Lemma validatePort_string (s : jsstring) :
  validatePort (VString s)
  = if isNaN (StringToNumber (trim s))
       || js_le (StringToNumber (trim s)) (number_of_Z 0)
       || js_gt (StringToNumber (trim s)) (number_of_Z 65535)
    then Normal (Some (js "Enter a valid TCP port (1-65535)."))
    else Normal None.
Proof. reflexivity. Qed.

(** X2. White space typed before or after an answer never changes what a
    validator says: each of the three gives the same result on
    [pre ++ s ++ post] as on [s] when [pre] and [post] are white space. *)
Theorem validators_ignore_padding (pre s post : jsstring) :
  forallb is_white_space pre = true ->
  forallb is_white_space post = true ->
  validateNamespace (VString (pre ++ s ++ post)) = validateNamespace (VString s)
  /\ validateServiceName (VString (pre ++ s ++ post))
     = validateServiceName (VString s)
  /\ validatePort (VString (pre ++ s ++ post)) = validatePort (VString s).
Proof.
  intros Hpre Hpost.
  rewrite !validateNamespace_string, !validateServiceName_string,
    !validatePort_string.
  rewrite (trim_padding pre s post Hpre Hpost). repeat split.
Qed.

Lemma validators_ignore_padding_witness :
  validatePort (VString (js "  " ++ js "3000" ++ js " "))
  = validatePort (VString (js "3000")).
Proof.
  apply (validators_ignore_padding (js "  ") (js "3000") (js " "));
    reflexivity.
Defined.

(** X3. The namespaces [validateNamespace] accepts, said without [trim]:
    the strings made of a non-empty core without white space, with any
    white space before and after it. *)
Theorem validateNamespace_accepts_shape (s : jsstring) :
  validateNamespace (VString s) = Normal None
  <-> exists pre core post,
      s = pre ++ core ++ post
      /\ forallb is_white_space pre = true
      /\ forallb is_white_space post = true
      /\ core <> []
      /\ test_white_space core = false.
Proof.
  rewrite validateNamespace_string. split.
  - intros H.
    destruct (trim_decompose s) as (pre & post & E & Hpre & Hpost).
    exists pre, (trim s), post.
    destruct (str_falsy (trim s)) eqn:Hf; [discriminate|].
    destruct (test_white_space (trim s)) eqn:Hw; [discriminate|].
    repeat split; try assumption.
    intros Hnil. rewrite Hnil in Hf. discriminate.
  - intros (pre & core & post & -> & Hpre & Hpost & Hne & Hw).
    rewrite (trim_padding pre core post Hpre Hpost), (trim_no_white_space core Hw).
    rewrite Hw. destruct core; [contradiction | reflexivity].
Qed.

(** X4. The two name validators accept the same inputs, reject the same
    inputs and throw on the same inputs; only the texts differ. *)
Theorem name_validators_agree (v : value) :
  (validateNamespace v = Normal None <-> validateServiceName v = Normal None)
  /\ (validateNamespace v = Normal (Some (js "Namespace cannot be empty."))
      <-> validateServiceName v = Normal (Some (js "Service name is required.")))
  /\ (validateNamespace v = Normal (Some (js "Namespace cannot contain spaces."))
      <-> validateServiceName v
          = Normal (Some (js "Service name cannot contain spaces.")))
  /\ (validateNamespace v = Throw TypeError
      <-> validateServiceName v = Throw TypeError).
Proof.
  destruct v as [| |b|n|z| |s]; simpl;
    try (repeat split; intros H; (reflexivity || discriminate)).
  destruct (str_falsy (trim s)); [|destruct (test_white_space (trim s))];
    repeat split; intros H; (reflexivity || discriminate).
Qed.

(** X5. An empty or blank port is rejected: it is coerced to 0. *)
Theorem validatePort_blank (s : jsstring) :
  forallb is_white_space s = true ->
  validatePort (VString s)
  = Normal (Some (js "Enter a valid TCP port (1-65535).")).
Proof.
  intros H. apply trim_nil_iff in H.
  rewrite validatePort_string, H. reflexivity.
Qed.

Lemma validatePort_blank_witness :
  validatePort (VString (js "   "))
  = Normal (Some (js "Enter a valid TCP port (1-65535).")).
Proof. apply validatePort_blank. reflexivity. Defined.

Lemma validatePort_decimal_digits_witness :
  validatePort (VString (js " 65535 ")) = Normal None.
Proof.
  apply (validatePort_decimal_digits (js " 65535 ")).
  - vm_compute. discriminate.
  - reflexivity.
  - vm_compute. split; discriminate.
Defined.

(** ** More on the Helm arguments *)

(** X6. Different namespaces never give the same agent URL nor the same
    argument list. *)
Theorem helm_args_injective (ns1 ns2 : jsstring) :
  ns1 <> ns2 ->
  buildAgentBaseUrl ns1 <> buildAgentBaseUrl ns2
  /\ buildDashboardHelmArgs ns1 <> buildDashboardHelmArgs ns2.
Proof.
  intros Hne. split; intros H; apply Hne.
  - rewrite !buildAgentBaseUrl_value in H.
    apply app_inv_head in H. apply app_inv_tail in H. exact H.
  - assert (H5 : forall ns, nth_error (buildDashboardHelmArgs ns) 5 = Some ns).
    { intros ns. unfold buildDashboardHelmArgs.
      destruct (negb (str_eqb ns DEFAULT_NAMESPACE)); reflexivity. }
    pose proof (H5 ns1) as H1. rewrite H, H5 in H1. congruence.
Qed.

Lemma helm_args_injective_witness :
  buildAgentBaseUrl (js "team-a") <> buildAgentBaseUrl (js "team-b")
  /\ buildDashboardHelmArgs (js "team-a") <> buildDashboardHelmArgs (js "team-b").
Proof.
  apply (helm_args_injective (js "team-a") (js "team-b")).
  vm_compute. discriminate.
Defined.

Lemma test_white_space_app (a b : jsstring) :
  test_white_space (a ++ b) = test_white_space a || test_white_space b.
Proof. apply existsb_app. Qed.

(** Every argument built for a namespace without white space is itself
    non-empty and without white space. *)
Lemma helm_args_no_white_space (ns : jsstring) :
  ns <> [] -> test_white_space ns = false ->
  Forall (fun token => token <> [] /\ test_white_space token = false)
         (buildDashboardHelmArgs ns).
Proof.
  intros Hne Hw. unfold buildDashboardHelmArgs, push.
  assert (Hurl : test_white_space
                   (js "agents[0].baseUrl=" ++ buildAgentBaseUrl ns) = false).
  { rewrite buildAgentBaseUrl_value, !test_white_space_app, Hw. reflexivity. }
  destruct (negb (str_eqb ns DEFAULT_NAMESPACE)); simpl app;
    repeat (apply Forall_cons; [split; [try discriminate | try reflexivity]|]);
    try apply Forall_nil; assumption.
Qed.

(** ** The answers of the prompts *)

Lemma accepted_namespace_trimmed (s : jsstring) :
  validateNamespace (VString s) = Normal None ->
  s <> [] /\ trim s <> [] /\ test_white_space (trim s) = false.
Proof.
  rewrite validateNamespace_string.
  destruct (str_falsy (trim s)) eqn:Hf; [discriminate|].
  destruct (test_white_space (trim s)) eqn:Hw; [discriminate|].
  intros _. repeat split.
  - intros ->. discriminate.
  - intros E. rewrite E in Hf. discriminate.
Qed.

(** X7. From an answer that [validateNamespace] accepted, the namespace the
    flow uses is the trimmed answer, and every argument that
    [buildDashboardHelmArgs] builds for it is non-empty and free of white
    space. *)
Theorem validated_namespace_gives_clean_args (s : jsstring) :
  validateNamespace (VString s) = Normal None ->
  namespace_of_response (VString s) = Normal (trim s)
  /\ Forall (fun token => token <> [] /\ test_white_space token = false)
            (buildDashboardHelmArgs (trim s)).
Proof.
  intros H. destruct (accepted_namespace_trimmed s H) as (Hs & Hne & Hw).
  split.
  - unfold namespace_of_response, js_or. simpl.
    destruct s; [contradiction | reflexivity].
  - apply helm_args_no_white_space; assumption.
Qed.

Lemma validated_namespace_gives_clean_args_witness :
  namespace_of_response (VString (js " team-a ")) = Normal (trim (js " team-a "))
  /\ Forall (fun token => token <> [] /\ test_white_space token = false)
            (buildDashboardHelmArgs (trim (js " team-a "))).
Proof.
  apply validated_namespace_gives_clean_args. reflexivity.
Defined.

Lemma accepted_service_trimmed (s : jsstring) :
  validateServiceName (VString s) = Normal None ->
  s <> [] /\ trim s <> [] /\ test_white_space (trim s) = false.
Proof.
  rewrite validateServiceName_string.
  destruct (str_falsy (trim s)) eqn:Hf; [discriminate|].
  destruct (test_white_space (trim s)) eqn:Hw; [discriminate|].
  intros _. repeat split.
  - intros ->. discriminate.
  - intros E. rewrite E in Hf. discriminate.
Qed.

(** X8. When the answer is absent, empty, or a string the validator of the
    prompt accepted, the name the flow goes on with is a string that the
    same validator accepts: the default, or the trimmed answer.  This holds
    for the namespace and for the service name. *)
Theorem response_names_are_valid (response : value) :
  (response = VUndefined \/ response = VString []
   \/ validateNamespace response = Normal None ->
   exists ns, namespace_of_response response = Normal ns
              /\ validateNamespace (VString ns) = Normal None)
  /\ (response = VUndefined \/ response = VString []
      \/ validateServiceName response = Normal None ->
      exists name, serviceName_of_response response = Normal name
                   /\ validateServiceName (VString name) = Normal None).
Proof.
  split.
  - intros [-> | [-> | H]]; try (eexists; split; reflexivity).
    destruct response as [| |b|n|z| |s]; try discriminate.
    destruct (accepted_namespace_trimmed s H) as (Hs & Hne & Hw).
    exists (trim s). split.
    + unfold namespace_of_response, js_or; simpl.
      destruct s; [contradiction | reflexivity].
    + rewrite validateNamespace_string, trim_idempotent, Hw.
      destruct (trim s); [contradiction | reflexivity].
  - intros [-> | [-> | H]]; try (eexists; split; reflexivity).
    destruct response as [| |b|n|z| |s]; try discriminate.
    destruct (accepted_service_trimmed s H) as (Hs & Hne & Hw).
    exists (trim s). split.
    + unfold serviceName_of_response, js_or; simpl.
      destruct s; [contradiction | reflexivity].
    + rewrite validateServiceName_string, trim_idempotent, Hw.
      destruct (trim s); [contradiction | reflexivity].
Qed.

Lemma response_names_are_valid_witness :
  (exists ns, namespace_of_response VUndefined = Normal ns
              /\ validateNamespace (VString ns) = Normal None)
  /\ (exists name, serviceName_of_response (VString (js " svc-cluster ")) = Normal name
                   /\ validateServiceName (VString name) = Normal None).
Proof.
  split.
  - apply (proj1 (response_names_are_valid VUndefined)). left. reflexivity.
  - apply (proj2 (response_names_are_valid (VString (js " svc-cluster ")))).
    right; right. reflexivity.
Defined.

(** X9. Without validation the fallback does not cover a blank answer: a
    non-empty string of white space is truthy, so the namespace and the
    service name become the empty string, not the default. *)
Theorem blank_response_gives_empty_name (s : jsstring) :
  s <> [] -> forallb is_white_space s = true ->
  namespace_of_response (VString s) = Normal []
  /\ serviceName_of_response (VString s) = Normal [].
Proof.
  intros Hne H. apply trim_nil_iff in H.
  unfold namespace_of_response, serviceName_of_response, js_or. simpl.
  destruct s; [contradiction|]. simpl. rewrite H. split; reflexivity.
Qed.

Lemma blank_response_gives_empty_name_witness :
  namespace_of_response (VString (js "  ")) = Normal []
  /\ serviceName_of_response (VString (js "  ")) = Normal [].
Proof.
  apply blank_response_gives_empty_name; [discriminate | reflexivity].
Defined.

Lemma positive_value_truthy (n : bool) (m e : Z) :
  (0 < to_Q n m e)%Q -> m <> 0.
Proof.
  intros H ->. unfold to_Q in H.
  assert (E : (inject_Z (if n then - 0 else 0) * 2 ^ e == 0)%Q)
    by (destruct n; simpl; apply Qmult_0_l).
  rewrite E in H. exact (Qlt_irrefl _ H).
Qed.

(** X10. A port answer that [validatePort] accepted is the local port the
    flow uses: [Number] of the answer, a finite number above 0 and at most
    65535; the fallback 3000 does not replace it. *)
Theorem validated_port_is_used (s : jsstring) :
  validatePort (VString s) = Normal None ->
  localPort_of_response (VString s) = Normal (StringToNumber s)
  /\ in_port_interval (StringToNumber s).
Proof.
  intros H.
  assert (Hin : in_port_interval (StringToNumber s)).
  { rewrite <- StringToNumber_trim. apply in_port_interval_iff.
    rewrite <- port_test_spec. rewrite validatePort_string in H.
    destruct (isNaN _ || js_le _ _ || js_gt _ _); congruence. }
  split; [|exact Hin].
  assert (Hs : s <> []).
  { intros ->. vm_compute in H. discriminate. }
  unfold localPort_of_response, js_or. simpl ToBoolean.
  destruct s as [|c r]; [contradiction|]. simpl negb. cbv iota. simpl Number.
  destruct Hin as (n & m & e & -> & Hpos & _).
  simpl. apply positive_value_truthy in Hpos.
  replace (m =? 0) with false by (symmetry; apply Z.eqb_neq; exact Hpos).
  reflexivity.
Qed.

Lemma validated_port_is_used_witness :
  localPort_of_response (VString (js "8080")) = Normal (StringToNumber (js "8080"))
  /\ in_port_interval (StringToNumber (js "8080")).
Proof. apply validated_port_is_used. reflexivity. Defined.

(** X11. Whatever string is answered, or none, the local port is never NaN
    and never zero; an absent, empty or blank answer and one that is not
    numeric give the default 3000. *)
Theorem localPort_never_falsy (portResponse : value) :
  portResponse = VUndefined \/ (exists s, portResponse = VString s) ->
  exists port,
    localPort_of_response portResponse = Normal port
    /\ number_truthy port = true
    /\ (portResponse = VUndefined -> port = DASHBOARD_LOCAL_PORT)
    /\ (forall s, portResponse = VString s ->
                  StringToNumber s = NaN \/ forallb is_white_space s = true ->
                  port = DASHBOARD_LOCAL_PORT).
Proof.
  intros [-> | [s ->]].
  - exists DASHBOARD_LOCAL_PORT.
    split; [reflexivity|]. split; [reflexivity|]. split; [reflexivity|].
    intros s H. discriminate.
  - assert (Hcases :
              localPort_of_response (VString s)
              = Normal (if str_falsy s then DASHBOARD_LOCAL_PORT
                        else if number_truthy (StringToNumber s)
                             then StringToNumber s else DASHBOARD_LOCAL_PORT)).
    { destruct s; reflexivity. }
    rewrite Hcases. eexists. split; [reflexivity|].
    split; [|split; [discriminate|]].
    + destruct (str_falsy s); [reflexivity|].
      destruct (number_truthy (StringToNumber s)) eqn:Ht;
        [exact Ht | reflexivity].
    + intros s' Hs' Hbad. injection Hs' as <-.
      destruct (str_falsy s); [reflexivity|].
      destruct (number_truthy (StringToNumber s)) eqn:Ht; [|reflexivity].
      exfalso. destruct Hbad as [Hnan | Hblank].
      * rewrite Hnan in Ht. discriminate.
      * apply trim_nil_iff in Hblank. unfold StringToNumber in Ht.
        rewrite Hblank in Ht. discriminate.
Qed.

Lemma localPort_never_falsy_witness :
  exists port,
    localPort_of_response (VString (js "abc")) = Normal port
    /\ number_truthy port = true
    /\ port = DASHBOARD_LOCAL_PORT.
Proof.
  destruct (localPort_never_falsy (VString (js "abc")))
    as (port & Hp & Ht & _ & Hd).
  - right. exists (js "abc"). reflexivity.
  - exists port. repeat split; try assumption.
    apply (Hd (js "abc") eq_refl). left. reflexivity.
Defined.

(** ** Choosing a context *)

Lemma split_not_nil (sep : code_unit) (s : jsstring) : split sep s <> [].
Proof.
  destruct s as [|c r]; simpl; [discriminate|].
  destruct (c =? sep)%N; [discriminate|].
  destruct (split sep r); discriminate.
Qed.

(** No piece of [split] holds the separator. *)
Lemma split_no_separator (sep : code_unit) (s piece : jsstring) :
  In piece (split sep s) -> ~ In sep piece.
Proof.
  revert piece. induction s as [|c r IH]; intros piece; simpl.
  - intros [<- | []] [].
  - destruct (c =? sep)%N eqn:E.
    + intros [<- | H]; [intros [] | apply IH, H].
    + apply N.eqb_neq in E.
      destruct (split sep r) as [|h t] eqn:Es.
      * intros [<- | []] [Hc | []]. congruence.
      * intros [<- | H].
        -- intros [Hc | Hh]; [congruence|].
           apply (IH h); [left; reflexivity | exact Hh].
        -- apply IH. right. exact H.
Qed.

(** A string is blank exactly when all the pieces of its lines are. *)
Lemma split_lines_blank (s : jsstring) :
  Forall (fun line => trim line = []) (split 10%N s)
  <-> forallb is_white_space s = true.
Proof.
  induction s as [|c r IH]; simpl.
  - split; [reflexivity|]. intros _. constructor; [reflexivity | constructor].
  - destruct (c =? 10)%N eqn:E.
    + apply N.eqb_eq in E. subst c. simpl. rewrite <- IH. split.
      * intros H. inversion H. assumption.
      * intros H. constructor; [reflexivity | exact H].
    + destruct (split 10%N r) as [|h t] eqn:Es.
      { exfalso. exact (split_not_nil _ _ Es). }
      rewrite andb_true_iff, <- IH. split.
      * intros H. inversion H as [|x l Hh Ht]; subst.
        apply trim_nil_iff in Hh. simpl in Hh.
        apply andb_true_iff in Hh. destruct Hh as [Hc Hh].
        split; [exact Hc|]. constructor; [apply trim_nil_iff, Hh | exact Ht].
      * intros [Hc H]. inversion H as [|x l Hh Ht]; subst.
        constructor; [|exact Ht].
        apply trim_nil_iff. simpl. rewrite Hc. apply trim_nil_iff, Hh.
Qed.

Lemma context_names_In (stdout context : jsstring) :
  In context (context_names stdout)
  <-> context <> [] /\ exists line, In line (split 10%N stdout) /\ context = trim line.
Proof.
  unfold context_names. rewrite filter_In, in_map_iff. split.
  - intros [(line & <- & Hin) Hf]. split; [|eauto].
    intros E. rewrite E in Hf. discriminate.
  - intros (Hne & line & Hin & ->). split; [eauto|].
    destruct (trim line); [contradiction | reflexivity].
Qed.

Lemma context_names_nil_iff (stdout : jsstring) :
  context_names stdout = [] <-> forallb is_white_space stdout = true.
Proof.
  rewrite <- split_lines_blank, Forall_forall. split.
  - intros H line Hin.
    destruct (trim line) as [|c r] eqn:E; [reflexivity|].
    assert (Hc : In (trim line) (context_names stdout)).
    { apply context_names_In. split; [rewrite E; discriminate | eauto]. }
    rewrite H in Hc. destruct Hc.
  - intros H.
    destruct (context_names stdout) as [|c l] eqn:E; [reflexivity|].
    assert (Hc : In c (context_names stdout)) by (rewrite E; left; reflexivity).
    apply context_names_In in Hc. destruct Hc as (Hne & line & Hin & ->).
    exfalso. apply Hne, H, Hin.
Qed.

(** X12. Every context offered for selection is a clean name: not empty,
    without white space at either end, without a line feed, and it is the
    trimmed form of a line of the command's output. *)
Theorem context_names_clean (stdout context : jsstring) :
  In context (context_names stdout) ->
  context <> []
  /\ trim context = context
  /\ ~ In 10%N context
  /\ (forall c r, context = c :: r -> is_white_space c = false)
  /\ (forall u c, context = u ++ [c] -> is_white_space c = false)
  /\ exists line, In line (split 10%N stdout) /\ context = trim line.
Proof.
  intros H. apply context_names_In in H. destruct H as (Hne & line & Hin & ->).
  split; [exact Hne|]. split; [apply trim_idempotent|]. split; [|split; [|split]].
  - intros H10. apply In_trim in H10. exact (split_no_separator _ _ _ Hin H10).
  - intros c r E. exact (trim_head _ _ _ E).
  - intros u c E. exact (trim_last _ _ _ E).
  - eauto.
Qed.

Lemma context_names_clean_witness :
  trim (js "minikube") = js "minikube" /\ ~ In 10%N (js "minikube").
Proof.
  destruct (context_names_clean
              (js "kind-dev" ++ [10%N] ++ js "  minikube  " ++ [10%N])
              (js "minikube")) as (_ & Ht & Hlf & _).
  - vm_compute. tauto.
  - split; assumption.
Defined.

(** X13. [promptForContextSelection] throws the step error "List Kubernetes
    contexts" without asking anything in exactly two cases: the command
    failed, and then the error carried is the command's; or its output is
    blank, and then the error carried says "No Kubernetes contexts found.".
    On any other output the user is asked, and the result is the answer,
    or the cancellation error. *)
Theorem promptForContextSelection_outcomes
        (currentContext : jsstring) (select : select_request -> select_answer) :
  (forall error,
      promptForContextSelection currentContext (Thrown error) select
      = Thrown (StepError (js "List Kubernetes contexts") error))
  /\ (forall stdout,
         forallb is_white_space stdout = true ->
         promptForContextSelection currentContext (Returned stdout) select
         = Thrown (StepError (js "List Kubernetes contexts")
                             (Error (js "No Kubernetes contexts found."))))
  /\ (forall stdout,
         forallb is_white_space stdout = false ->
         promptForContextSelection currentContext (Returned stdout) select
         = match select (context_request currentContext (context_names stdout)) with
           | Cancelled => Thrown OperationCancelledError
           | Selected selectedContext => Returned selectedContext
           end).
Proof.
  split; [reflexivity|]. split; intros stdout H; unfold promptForContextSelection.
  - apply context_names_nil_iff in H. rewrite H. reflexivity.
  - destruct (context_names stdout) eqn:E; [|reflexivity].
    apply context_names_nil_iff in E. congruence.
Qed.

Lemma promptForContextSelection_outcomes_witness :
  promptForContextSelection (js "dev") (Returned (js "  ")) (fun _ => Cancelled)
  = Thrown (StepError (js "List Kubernetes contexts")
                      (Error (js "No Kubernetes contexts found.")))
  /\ promptForContextSelection (js "dev") (Returned (js "dev")) (fun _ => Cancelled)
     = Thrown OperationCancelledError.
Proof.
  destruct (promptForContextSelection_outcomes (js "dev") (fun _ => Cancelled))
    as (_ & Hblank & Hask).
  split.
  - apply Hblank. reflexivity.
  - etransitivity; [apply Hask; reflexivity | reflexivity].
Defined.

Lemma includes_true (contexts : list jsstring) (c : jsstring) :
  includes contexts c = true <-> In c contexts.
Proof.
  unfold includes. rewrite existsb_exists. split.
  - intros (x & Hin & Hx). apply str_eqb_true in Hx. subst. exact Hin.
  - intros H. exists c. split; [exact H | apply str_eqb_true; reflexivity].
Qed.

(** X14. The request given to [select] lists the contexts in order as its
    values, marks with " (current)" exactly the options equal to the
    current context, and preselects a value that is in the list: the
    current context when it is listed, the first context otherwise. *)
Theorem context_request_initial (currentContext : jsstring) (contexts : list jsstring) :
  contexts <> [] ->
  List.map opt_value (options (context_request currentContext contexts)) = contexts
  /\ (forall o, In o (options (context_request currentContext contexts)) ->
                (opt_value o = currentContext ->
                 opt_label o = opt_value o ++ js " (current)")
                /\ (opt_value o <> currentContext -> opt_label o = opt_value o))
  /\ exists v,
      initialValue (context_request currentContext contexts) = Some v
      /\ In v contexts
      /\ (In currentContext contexts -> v = currentContext)
      /\ (~ In currentContext contexts -> nth_error contexts 0 = Some v).
Proof.
  intros Hne. split; [|split].
  - simpl. rewrite map_map. simpl. apply map_id.
  - intros o Ho. simpl in Ho. apply in_map_iff in Ho.
    destruct Ho as (ctx & <- & _). simpl.
    destruct (str_eqb ctx currentContext) eqn:E.
    + split; [reflexivity|]. apply str_eqb_true in E. congruence.
    + split; [|reflexivity]. intros H. apply str_eqb_true in H. congruence.
  - simpl. destruct (includes contexts currentContext) eqn:E.
    + apply includes_true in E. exists currentContext.
      repeat split; try assumption. intros H. contradiction.
    + destruct contexts as [|c l]; [contradiction|].
      exists c. split; [reflexivity|]. split; [left; reflexivity|].
      split; [|reflexivity].
      intros H. apply includes_true in H. congruence.
Qed.

Lemma context_request_initial_witness :
  exists v,
    initialValue (context_request (js "gone") [js "dev"; js "prod"]) = Some v
    /\ In v [js "dev"; js "prod"].
Proof.
  destruct (context_request_initial (js "gone") [js "dev"; js "prod"])
    as (_ & _ & v & Hv & Hin & _).
  - discriminate.
  - exists v. split; assumption.
Defined.

(** ** The install state *)

Lemma name_is_true (releaseName : jsstring) (r : release) :
  name_is releaseName r = true <-> release_name r = Some releaseName.
Proof.
  unfold name_is. destruct (release_name r) as [n|].
  - rewrite str_eqb_true. split; congruence.
  - split; discriminate.
Qed.

Lemma find_first {A : Type} (f : A -> bool) (l : list A) (x : A) :
  find f l = Some x ->
  exists before after,
    l = before ++ x :: after /\ f x = true
    /\ forall y, In y before -> f y = false.
Proof.
  induction l as [|a l IH]; simpl; [discriminate|].
  destruct (f a) eqn:E.
  - intros H. injection H as <-. exists [], l. repeat split; [exact E|].
    intros y [].
  - intros H. destruct (IH H) as (before & after & -> & Hx & Hb).
    exists (a :: before), after. repeat split; [exact Hx|].
    intros y [<- | Hy]; [exact E | apply Hb, Hy].
Qed.

(** X15. [findReleaseInfo] answers [null] exactly when no release has the
    name; otherwise it reports the first release of that name in the
    list, whatever comes after it, and copies its namespace, revision,
    update time and status. *)
Theorem findReleaseInfo_first_match (releases : list release) (releaseName : jsstring) :
  (findReleaseInfo releases releaseName = None
   <-> forall r, In r releases -> release_name r <> Some releaseName)
  /\ (forall info,
         findReleaseInfo releases releaseName = Some info ->
         exists before m after,
           releases = before ++ m :: after
           /\ release_name m = Some releaseName
           /\ (forall r, In r before -> release_name r <> Some releaseName)
           /\ info = {| info_namespace := release_namespace m;
                        info_revision := release_revision m;
                        info_updated := release_updated m;
                        info_status := release_status m |}).
Proof.
  unfold findReleaseInfo. split.
  - destruct (find (name_is releaseName) releases) as [m|] eqn:E.
    + split; [discriminate|]. intros H. exfalso.
      apply find_some in E. destruct E as [Hin Hm].
      apply name_is_true in Hm. exact (H m Hin Hm).
    + split; [|reflexivity]. intros _ r Hin Hr.
      pose proof (find_none _ _ E r Hin) as Hf.
      apply name_is_true in Hr. congruence.
  - intros info H.
    destruct (find (name_is releaseName) releases) as [m|] eqn:E; [|discriminate].
    injection H as <-.
    destruct (find_first _ _ _ E) as (before & after & -> & Hm & Hb).
    exists before, m, after. split; [reflexivity|].
    split; [apply name_is_true, Hm|]. split; [|reflexivity].
    intros r Hr Hname. apply name_is_true in Hname.
    rewrite (Hb r Hr) in Hname. discriminate.
Qed.

Lemma findReleaseInfo_Some_iff (releases : list release) (releaseName : jsstring) :
  (exists info, findReleaseInfo releases releaseName = Some info)
  <-> exists r, In r releases /\ release_name r = Some releaseName.
Proof.
  unfold findReleaseInfo.
  destruct (find (name_is releaseName) releases) as [m|] eqn:E.
  - split; [|eauto]. intros _.
    apply find_some in E. destruct E as [Hin Hm].
    exists m. split; [exact Hin | apply name_is_true, Hm].
  - split.
    + intros [info H]. discriminate.
    + intros (r & Hin & Hr). apply name_is_true in Hr.
      rewrite (find_none _ _ E r Hin) in Hr. discriminate.
Qed.

Lemma hasExistingInstall_true (state : install_state) :
  hasExistingInstall state = true
  <-> (exists i, agent state = Some i) \/ (exists i, dashboard state = Some i).
Proof.
  unfold hasExistingInstall.
  destruct (agent state) as [a|]; [split; eauto|].
  destruct (dashboard state) as [d|]; [split; eauto|].
  split; [discriminate|]. intros [[i H] | [i H]]; discriminate.
Qed.

(** X16. After [detectInstallState] an install is known exactly when the
    parsed [helm list] holds a release named "clustercost-agent" or
    "clustercost-dashboard", in any namespace.  A failed command or a
    failed parse leaves the state as it was, and an output that is blank
    clears it. *)
Theorem detectInstallState_detects
        (parse : jsstring -> option (list release)) (installState : install_state) :
  (forall error, detectInstallState parse installState (Thrown error) = installState)
  /\ (forall out, trim out <> [] -> parse (trim out) = None ->
                  detectInstallState parse installState (Returned out) = installState)
  /\ (forall out, forallb is_white_space out = true ->
                  hasExistingInstall
                    (detectInstallState parse installState (Returned out)) = false)
  /\ (forall out releases,
         trim out <> [] -> parse (trim out) = Some releases ->
         (hasExistingInstall
            (detectInstallState parse installState (Returned out)) = true
          <-> exists r, In r releases
                        /\ (release_name r = Some (js "clustercost-agent")
                            \/ release_name r = Some (js "clustercost-dashboard")))).
Proof.
  split; [reflexivity|]. split; [|split].
  - intros out Hne Hp. unfold detectInstallState.
    destruct (trim out); [contradiction|]. simpl str_falsy. cbv iota.
    rewrite Hp. reflexivity.
  - intros out H. apply trim_nil_iff in H. unfold detectInstallState.
    rewrite H. reflexivity.
  - intros out releases Hne Hp. unfold detectInstallState.
    destruct (trim out) as [|c t] eqn:E; [contradiction|]. simpl str_falsy.
    cbv iota. rewrite Hp.
    rewrite hasExistingInstall_true. simpl agent. simpl dashboard.
    rewrite (findReleaseInfo_Some_iff releases AGENT_RELEASE).
    rewrite (findReleaseInfo_Some_iff releases DASHBOARD_RELEASE).
    split.
    + intros [(r & Hin & Hr) | (r & Hin & Hr)]; exists r; tauto.
    + intros (r & Hin & [Hr | Hr]); [left | right]; exists r; tauto.
Qed.

Lemma detectInstallState_detects_witness :
  hasExistingInstall
    (detectInstallState
       (fun _ => Some [ {| release_name := Some (js "clustercost-dashboard");
                           release_namespace := Some (js "costs");
                           release_revision := Some (js "2");
                           release_updated := None;
                           release_status := Some (js "deployed") |} ])
       {| agent := None; dashboard := None |}
       (Returned (js "[...]"))) = true.
Proof.
  destruct (detectInstallState_detects
              (fun _ => Some [ {| release_name := Some (js "clustercost-dashboard");
                                  release_namespace := Some (js "costs");
                                  release_revision := Some (js "2");
                                  release_updated := None;
                                  release_status := Some (js "deployed") |} ])
              {| agent := None; dashboard := None |}) as (_ & _ & _ & H).
  apply (H (js "[...]") _ ltac:(vm_compute; discriminate) eq_refl).
  eexists. split; [left; reflexivity|]. right. reflexivity.
Defined.

Lemma truthy_namespace_not_nil (info : option release_info) (ns : jsstring) :
  truthy_namespace info = Some ns -> ns <> [].
Proof.
  unfold truthy_namespace. destruct info as [i|]; [|discriminate].
  destruct (info_namespace i) as [n|]; [|discriminate].
  destruct n; simpl; [discriminate|]. intros H. injection H as <-. discriminate.
Qed.

Lemma resolveDefaultNamespace_truthy (installState : install_state) :
  str_falsy (resolveDefaultNamespace installState) = false.
Proof.
  unfold resolveDefaultNamespace.
  destruct (truthy_namespace (agent installState)) as [ns|] eqn:Ea.
  - apply truthy_namespace_not_nil in Ea. destruct ns; [contradiction | reflexivity].
  - destruct (truthy_namespace (dashboard installState)) as [ns|] eqn:Ed;
      [|reflexivity].
    apply truthy_namespace_not_nil in Ed. destruct ns; [contradiction | reflexivity].
Qed.

(** X17. [resolveDefaultNamespace] never answers the empty string.  The
    agent's namespace is taken when it is a non-empty string, else the
    dashboard's, else "clustercost". *)
Theorem resolveDefaultNamespace_not_empty (installState : install_state) :
  resolveDefaultNamespace installState <> []
  /\ (forall i ns, agent installState = Some i -> info_namespace i = Some ns ->
                   ns <> [] -> resolveDefaultNamespace installState = ns)
  /\ (truthy_namespace (agent installState) = None ->
      forall i ns, dashboard installState = Some i -> info_namespace i = Some ns ->
                   ns <> [] -> resolveDefaultNamespace installState = ns)
  /\ (truthy_namespace (agent installState) = None ->
      truthy_namespace (dashboard installState) = None ->
      resolveDefaultNamespace installState = js "clustercost").
Proof.
  unfold resolveDefaultNamespace. split; [|split; [|split]].
  - intros E. pose proof (resolveDefaultNamespace_truthy installState) as H.
    unfold resolveDefaultNamespace in H. rewrite E in H. discriminate.
  - intros i ns Hi Hns Hne. unfold truthy_namespace. rewrite Hi, Hns.
    destruct ns; [contradiction | reflexivity].
  - intros Ha i ns Hi Hns Hne. rewrite Ha. unfold truthy_namespace.
    rewrite Hi, Hns. destruct ns; [contradiction | reflexivity].
  - intros Ha Hd. rewrite Ha, Hd. reflexivity.
Qed.

Lemma resolveDefaultNamespace_not_empty_witness :
  resolveDefaultNamespace
    {| agent := Some {| info_namespace := Some []; info_revision := None;
                        info_updated := None; info_status := None |};
       dashboard := Some {| info_namespace := Some (js "costs");
                            info_revision := None; info_updated := None;
                            info_status := None |} |}
  = js "costs".
Proof.
  destruct (resolveDefaultNamespace_not_empty
              {| agent := Some {| info_namespace := Some []; info_revision := None;
                                  info_updated := None; info_status := None |};
                 dashboard := Some {| info_namespace := Some (js "costs");
                                      info_revision := None; info_updated := None;
                                      info_status := None |} |})
    as (_ & _ & H & _).
  apply (H eq_refl _ (js "costs") eq_refl eq_refl). discriminate.
Defined.

(** ** The main menu *)

(** X18. When an install is known, the first entry of the menu always
    names a namespace: its label is "Launch dashboard (port-forward
    [U+00B7] ns: <namespace>)" with the namespace of
    [resolveDefaultNamespace]; the label without a namespace is never
    shown. *)
Theorem menu_port_forward_label (installState : install_state) :
  hasExistingInstall installState = true ->
  nth_error (buildMenuOptions installState) 0
  = Some {| opt_label :=
              js "Launch dashboard (port-forward " ++ [183%N] ++ js " ns: "
              ++ resolveDefaultNamespace installState ++ js ")";
            opt_value := js "port-forward" |}.
Proof.
  intros H. unfold buildMenuOptions. rewrite H. simpl negb. cbv iota.
  cbv zeta. rewrite (resolveDefaultNamespace_truthy installState). reflexivity.
Qed.

Lemma menu_port_forward_label_witness :
  nth_error (buildMenuOptions
               {| agent := None;
                  dashboard := Some {| info_namespace := None; info_revision := None;
                                       info_updated := None; info_status := None |} |}) 0
  = Some {| opt_label :=
              js "Launch dashboard (port-forward " ++ [183%N]
              ++ js " ns: clustercost)";
            opt_value := js "port-forward" |}.
Proof.
  apply (menu_port_forward_label
           {| agent := None;
              dashboard := Some {| info_namespace := None; info_revision := None;
                                   info_updated := None; info_status := None |} |}).
  reflexivity.
Defined.

(** X19. The entry preselected in the main menu is always one of the
    entries shown: "port-forward" when an install is known and "install"
    when none is; the fallbacks to the first entry and to "install" are
    never needed. *)
Theorem menu_initialValue_offered (installState : install_state) :
  In (menu_initialValue installState)
     (List.map opt_value (buildMenuOptions installState))
  /\ menu_initialValue installState
     = (if hasExistingInstall installState then js "port-forward" else js "install")
  /\ find (fun option =>
             str_eqb (opt_value option)
                     (if hasExistingInstall installState
                      then js "port-forward" else js "install"))
          (buildMenuOptions installState) <> None.
Proof.
  unfold menu_initialValue, buildMenuOptions.
  destruct (hasExistingInstall installState); simpl negb; cbv iota.
  - repeat split; [vm_compute; tauto | discriminate].
  - repeat split; [vm_compute; tauto | discriminate].
Qed.

(** X20. The values of the menu are distinct, the last entry is "exit",
    "install" and "about" are always there, and every value except "exit"
    has its own branch in the [switch] of [run]: choosing an entry never
    falls into the default case; "port-forward", "uninstall" and "debug"
    are offered only when an install is known. *)
Theorem menu_values_handled (installState : install_state) :
  let values := List.map opt_value (buildMenuOptions installState) in
  NoDup values
  /\ last values [] = js "exit"
  /\ In (js "install") values /\ In (js "about") values
  /\ (forall v, In v values -> v <> js "exit" -> menu_switch v <> StopRunning)
  /\ menu_switch (js "exit") = StopRunning
  /\ (hasExistingInstall installState = false ->
      ~ In (js "port-forward") values /\ ~ In (js "uninstall") values
      /\ ~ In (js "debug") values).
Proof.
  unfold buildMenuOptions.
  destruct (hasExistingInstall installState); simpl negb; cbv iota; cbv zeta;
    simpl List.map.
  - split; [|split; [reflexivity|]].
    { repeat (constructor; [vm_compute; intuition discriminate|]). constructor. }
    split; [vm_compute; tauto|]. split; [vm_compute; tauto|].
    split; [|split; [reflexivity | discriminate]].
    intros v Hv Hne. simpl in Hv.
    destruct Hv as [<- | [<- | [<- | [<- | [<- | [<- | []]]]]]];
      try discriminate. contradiction.
  - split; [|split; [reflexivity|]].
    { repeat (constructor; [vm_compute; intuition discriminate|]). constructor. }
    split; [vm_compute; tauto|]. split; [vm_compute; tauto|].
    split; [|split; [reflexivity|]].
    + intros v Hv Hne. simpl in Hv.
      destruct Hv as [<- | [<- | [<- | []]]]; try discriminate. contradiction.
    + intros _. repeat split; vm_compute; intuition discriminate.
Qed.

Lemma menu_values_handled_witness :
  ~ In (js "uninstall")
       (List.map opt_value (buildMenuOptions {| agent := None; dashboard := None |})).
Proof.
  destruct (menu_values_handled {| agent := None; dashboard := None |})
    as (_ & _ & _ & _ & _ & _ & H).
  exact (proj1 (proj2 (H eq_refl))).
Defined.

(** ** Steps *)

(** X21. An error that leaves [runStep] is always a [StepError].  A step
    error raised inside is passed on as it is, so a step run inside a step
    ends the same way as the inner step alone and the innermost label is
    the one reported; any other error is wrapped once, under the label of
    the step, after the spinner was told to fail. *)
Theorem runStep_errors {A : Type} (label : jsstring) (fn : outcome A)
        (successLabel : option jsstring) :
  (forall e, snd (runStep label fn successLabel) = Thrown e ->
             exists step commandError, e = StepError step commandError)
  /\ (forall outer outerSuccess,
         snd (runStep outer (snd (runStep label fn successLabel)) outerSuccess)
         = snd (runStep label fn successLabel))
  /\ (forall e, fn = Thrown e ->
                (forall step c, e <> StepError step c) ->
                runStep label fn successLabel
                = ([SpinnerStart label; SpinnerFail label],
                   Thrown (StepError label e)))
  /\ (forall r, fn = Returned r ->
                snd (runStep label fn successLabel) = Returned r).
Proof.
  split; [|split; [|split]].
  - intros e. destruct fn as [r | [m | s c |]]; simpl; intros H;
      try discriminate; injection H as <-; eauto.
  - intros outer outerSuccess.
    destruct fn as [r | [m | s c |]]; reflexivity.
  - intros e -> Hne. destruct e as [m | s c |]; try reflexivity.
    exfalso. exact (Hne s c eq_refl).
  - intros r ->. reflexivity.
Qed.

Lemma runStep_errors_witness :
  runStep (js "Updating Helm repositories")
          (@Thrown unit (Error (js "Command failed: helm repo update"))) None
  = ([SpinnerStart (js "Updating Helm repositories");
      SpinnerFail (js "Updating Helm repositories")],
     Thrown (StepError (js "Updating Helm repositories")
                       (Error (js "Command failed: helm repo update")))).
Proof.
  apply (proj1 (proj2 (proj2 (runStep_errors
                                (js "Updating Helm repositories")
                                (@Thrown unit (Error (js "Command failed: helm repo update")))
                                None)))
               _ eq_refl).
  intros step c. discriminate.
Defined.

Lemma findReleaseInfo_first_match_witness :
  findReleaseInfo
    [ {| release_name := Some (js "clustercost-agent");
         release_namespace := Some (js "staging");
         release_revision := Some (js "3"); release_updated := None;
         release_status := Some (js "deployed") |};
      {| release_name := Some (js "clustercost-agent");
         release_namespace := Some (js "prod");
         release_revision := Some (js "7"); release_updated := None;
         release_status := Some (js "failed") |} ]
    (js "clustercost-dashboard") = None.
Proof.
  apply (proj1 (findReleaseInfo_first_match _ _)).
  intros r [<- | [<- | []]]; vm_compute; discriminate.
Defined.
